(** * solidity_analyzer: batch runner for solc and slither

    A shallow embedding of [solidity_analyzer.py].  The script walks
    [./contracts-evaluation] for [*.sol] files, runs the compiler and the
    linter on each of them as subprocesses, gathers the two result
    dictionaries under a key built from the path, and dumps the whole
    dictionary as JSON.

    What lives outside the script is taken as given: the outcome of
    [subprocess.run], [json.loads], and the two atom printers of the JSON
    encoder.  Everything the script itself does (the [try]/[except]
    blocks, the choice of stream, the key, the dictionary update, the
    overwrite of the report) is written out. *)

From Stdlib Require Import String Ascii List ZArith Bool Lia.
From Stdlib Require Import Floats.SpecFloat.
From Stdlib Require DecimalString.
Import ListNotations.

Local Open Scope nat_scope.
Local Open Scope list_scope.
Local Open Scope string_scope.

Set Warnings "-register-all".

(** ** Python values that can reach [json.dump] *)

(** Python dictionaries keep insertion order, so a dictionary is an
    association list with pairwise distinct keys. *)
Inductive value : Type :=
| VNone
| VBool (b : bool)
| VInt (z : Z)
| VFloat (f : spec_float)
| VStr (s : string)
| VList (items : list value)
| VDict (entries : list (string * value)).

Definition dict : Type := list (string * value).

Fixpoint dict_get (k : string) (d : dict) : option value :=
  match d with
  | [] => None
  | (k', v) :: d' => if String.eqb k' k then Some v else dict_get k d'
  end.

(** [d[k] = v]: an existing key keeps its place and gets the new value, a
    new key goes to the end. *)
Fixpoint dict_set (k : string) (v : value) (d : dict) : dict :=
  match d with
  | [] => [(k, v)]
  | (k', v') :: d' =>
      if String.eqb k' k then (k', v) :: d' else (k', v') :: dict_set k v d'
  end.

Definition dict_keys (d : dict) : list string := map fst d.

(** Field access on a value that is expected to be a dictionary. *)
Definition value_get (k : string) (v : value) : option value :=
  match v with
  | VDict d => dict_get k d
  | _ => None
  end.

(** Induction on values that reaches the members of lists and
    dictionaries. *)
Section ValueInduction.

Variable P : value -> Prop.
Hypothesis P_none : P VNone.
Hypothesis P_bool : forall b, P (VBool b).
Hypothesis P_int : forall z, P (VInt z).
Hypothesis P_float : forall f, P (VFloat f).
Hypothesis P_str : forall s, P (VStr s).
Hypothesis P_list : forall items, Forall P items -> P (VList items).
Hypothesis P_dict :
  forall entries, Forall (fun kv => P (snd kv)) entries -> P (VDict entries).

Fixpoint value_nested_ind (v : value) : P v :=
  match v with
  | VNone => P_none
  | VBool b => P_bool b
  | VInt z => P_int z
  | VFloat f => P_float f
  | VStr s => P_str s
  | VList items =>
      P_list items
        ((fix all (l : list value) : Forall P l :=
            match l with
            | [] => Forall_nil P
            | x :: l' => Forall_cons x (value_nested_ind x) (all l')
            end) items)
  | VDict entries =>
      P_dict entries
        ((fix all (l : list (string * value))
            : Forall (fun kv => P (snd kv)) l :=
            match l with
            | [] => Forall_nil _
            | kv :: l' =>
                Forall_cons kv (value_nested_ind (snd kv)) (all l')
            end) entries)
  end.

End ValueInduction.

(** Truth value of a Python [str]: only the empty string is false. *)
Definition str_truthy (s : string) : bool :=
  match s with
  | EmptyString => false
  | String _ _ => true
  end.

(** ** Paths *)

(** A [pathlib.Path] is represented by its [parts]. *)
Definition path : Type := list string.

Definition parts (p : path) : list string := p.

(** [str(p)] for the relative POSIX paths that [rglob] yields. *)
Definition path_str (p : path) : string := String.concat "/" p.

(** [p.name]: the last component. *)
Definition name (p : path) : string := last p EmptyString.

(** [s.rfind(c)]: index of the last occurrence, [None] for Python's -1. *)
Fixpoint rfind (c : ascii) (s : string) : option nat :=
  match s with
  | EmptyString => None
  | String a s' =>
      match rfind c s' with
      | Some i => Some (S i)
      | None => if Ascii.eqb a c then Some 0 else None
      end
  end.

(** [PurePath.stem]:
<<
    name = self.name
    i = name.rfind('.')
    if 0 < i < len(name) - 1: return name[:i]
    else: return name
>> *)
Definition stem (p : path) : string :=
  let nm := name p in
  match rfind "." nm with
  | Some i =>
      if ((0 <? i) && (i <? String.length nm - 1))%nat
      then substring 0 i nm
      else nm
  | None => nm
  end.

(** The name of the directory holding the file: the component before the
    last one. *)
Definition parent_name (p : path) : string :=
  nth (List.length p - 2) p EmptyString.

(** ** Outcomes of Python code *)

(** A computation returns, raises an instance of [Exception] (caught by
    [except Exception]), or raises some other [BaseException] such as
    [KeyboardInterrupt] (not caught by it).  The string is [str(e)]. *)
Inductive result (A : Type) : Type :=
| Ret (a : A)
| Exc (msg : string)
| BaseExc (msg : string).

Arguments Ret {A} a.
Arguments Exc {A} msg.
Arguments BaseExc {A} msg.

(** What [subprocess.run(..., stdout=PIPE, stderr=PIPE, text=True)] returns. *)
Record CompletedProcess : Type := mkCompleted {
  returncode : Z;
  stdout : string;
  stderr : string
}.

(** [json.loads] either yields a value or raises [JSONDecodeError]. *)
Inductive parsed : Type :=
| Parsed (v : value)
| JSONDecodeError (msg : string).

(** ** The command lines *)

Definition solc_argv (sol_file : string) : list string :=
  ["solc"; "--ast-compact-json"; "--optimize"; sol_file].

Definition slither_argv (sol_file : string) : list string :=
  ["slither"; sol_file; "--json"; "-"].

(** The stream handed to [json.loads]:
    [result.stdout if result.stdout else result.stderr]. *)
Definition slither_selected (r : CompletedProcess) : string :=
  if str_truthy (stdout r) then stdout r else stderr r.

(** The dictionary built by both [except] handlers. *)
Definition error_result (sol_file msg : string) : value :=
  VDict [("file", VStr sol_file); ("success", VBool false); ("error", VStr msg)].

(** The key of a target: [f"{model}/{contract}"] with [model = parts[1]]
    and [contract = sol_path.stem]. *)
Definition target_key (sol_path : path) : string :=
  let model := nth 1 (parts sol_path) EmptyString in
  let contract := stem sol_path in
  model ++ "/" ++ contract.

(** The test of the [continue]: [len(parts) < 3]. *)
Definition too_shallow (sol_path : path) : bool :=
  (List.length (parts sol_path) <? 3)%nat.

(** ** A scripted environment to run the model on

    The world is the list of outcomes that the next subprocess calls will
    have; a call made when the script is exhausted fails to launch. *)

Inductive scripted : Type :=
| Completes (rc : Z) (out err : string)
| FailsToLaunch (msg : string).

Definition script_run (argv : list string) (w : list scripted)
  : result CompletedProcess * list scripted :=
  match w with
  | [] => (Exc "[Errno 2] No such file or directory", [])
  | Completes rc out err :: w' => (Ret (mkCompleted rc out err), w')
  | FailsToLaunch msg :: w' => (Exc msg, w')
  end.

(** A loader that knows three documents and rejects every other text. *)
Definition tiny_loads (s : string) : parsed :=
  if String.eqb s "{}" then Parsed (VDict [])
  else if String.eqb s "[]" then Parsed (VList [])
  else if String.eqb s "null" then Parsed VNone
  else JSONDecodeError "Expecting value: line 1 column 1 (char 0)".

Definition tiny_float_repr (f : spec_float) : string := "0.0".

Definition dquote : string := String (ascii_of_nat 34) EmptyString.

(** Quotes without escaping: enough for the plain ASCII texts of the
    examples. *)
Definition tiny_encode_str (s : string) : string := dquote ++ s ++ dquote.

Definition deep_example : path :=
  ["contracts-evaluation"; "modelA"; "sub"; "foo.sol"].

Definition flat_example : path :=
  ["contracts-evaluation"; "modelA"; "foo.sol"].

Definition shallow_example : path :=
  ["contracts-evaluation"; "stray.sol"].

(** A world that is the list of the command lines run so far; every
    command completes silently with exit code 0. *)
Definition logging_run (argv : list string) (w : list (list string))
  : result CompletedProcess * list (list string) :=
  (Ret (mkCompleted 0 EmptyString EmptyString), (w ++ [argv])%list).

(** A world that counts the calls left before the user interrupts: the
    calls complete silently until then, and the next one is cut short by a
    [KeyboardInterrupt], whose text is empty. *)
Definition interrupted_run (argv : list string) (calls_left : nat)
  : result CompletedProcess * nat :=
  match calls_left with
  | O => (BaseExc EmptyString, O)
  | S k => (Ret (mkCompleted 0 EmptyString EmptyString), k)
  end.

Definition root_example : string := "contracts-evaluation".

Definition other_example : path :=
  ["contracts-evaluation"; "modelB"; "bar.sol"].

(** ** The script *)

Section Analyzer.

Set Implicit Arguments.
Set Default Proof Using "Type".

Variable World : Type.

(** [subprocess.run] on a command line, acting on the outside world. *)
Variable subprocess_run :
  list string -> World -> result CompletedProcess * World.

Variable json_loads : string -> parsed.

(** [float.__repr__] and [json.encoder.encode_basestring_ascii]. *)
Variable float_repr : spec_float -> string.
Variable encode_basestring_ascii : string -> string.

(** What the script can change: the outside world through its
    subprocesses, the console, and the report file (its text, once it
    exists). *)
Record State : Type := mkState {
  world : World;
  console : list string;
  report_file : option string
}.

Definition set_world (w : World) (st : State) : State :=
  mkState w (console st) (report_file st).

Definition set_report (r : option string) (st : State) : State :=
  mkState (world st) (console st) r.

Definition M (A : Type) : Type := State -> result A * State.

Definition ret {A : Type} (a : A) : M A := fun st => (Ret a, st).

Definition raise {A : Type} (msg : string) : M A := fun st => (Exc msg, st).

Definition bind {A B : Type} (c : M A) (k : A -> M B) : M B :=
  fun st =>
    match c st with
    | (Ret a, st') => k a st'
    | (Exc msg, st') => (Exc msg, st')
    | (BaseExc msg, st') => (BaseExc msg, st')
    end.

Notation "x <- c ;; k" := (bind c (fun x => k))
  (at level 61, c at next level, right associativity).
Notation "c ;;; k" := (bind c (fun _ => k))
  (at level 61, right associativity).

(** [try: body except Exception as e: handler(str(e))]. *)
Definition try_except {A : Type} (body : M A) (handler : string -> M A) : M A :=
  fun st =>
    match body st with
    | (Exc msg, st') => handler msg st'
    | other => other
    end.

Definition run (argv : list string) : M CompletedProcess :=
  fun st =>
    let (r, w') := subprocess_run argv (world st) in (r, set_world w' st).

Definition loads (s : string) : M value :=
  match json_loads s with
  | Parsed v => ret v
  | JSONDecodeError msg => raise msg
  end.

(** [print(line)] on a console that takes the line.  A console that
    cannot encode the text makes the real [print] raise; that case is not
    part of the model, which follows a run on its way through the
    subprocess calls. *)
Definition print (line : string) : M unit :=
  fun st => (Ret tt, mkState (world st) ((console st ++ [line])%list) (report_file st)).

(** [with open(REPORT_FILE, "w") as f: f.write(text)]: mode ["w"]
    truncates, so the old text is gone.  The file is taken to be
    writable; a report path that cannot be opened or written makes the
    real run stop there, and that case is not part of the model. *)
Definition write_report (text : string) : M unit :=
  fun st => (Ret tt, set_report (Some text) st).

(** *** The two checks *)

Definition solc_try (sol_file : string) : M value :=
  result <- run (solc_argv sol_file) ;;
  let success := (returncode result =? 0)%Z in
  ret (VDict [("file", VStr sol_file);
              ("success", VBool success);
              ("solc_output",
               VStr (if success then stdout result else stderr result))]).

Definition run_solc_check (sol_file : string) : M value :=
  try_except (solc_try sol_file)
             (fun e => ret (error_result sol_file e)).

Definition slither_try (sol_file : string) : M value :=
  result <- run (slither_argv sol_file) ;;
  let success := (returncode result =? 0)%Z in
  let output := if str_truthy (stdout result)
                then stdout result else stderr result in
  slither_output <- (if str_truthy output then loads output
                     else ret (VDict [])) ;;
  ret (VDict [("file", VStr sol_file);
              ("success", VBool success);
              ("slither_output", slither_output)]).

Definition run_slither_check (sol_file : string) : M value :=
  try_except (slither_try sol_file)
             (fun e => ret (error_result sol_file e)).

(** *** The JSON encoder with an indent

    [json.dump(obj, f, indent=n)] as the pure Python encoder writes it:
    with an indent the item separator is [","] followed by a new line and
    the indentation of the level, the key separator is [": "], and empty
    containers are written closed on the spot. *)

Fixpoint spaces (n : nat) : string :=
  match n with
  | O => EmptyString
  | S n' => String " " (spaces n')
  end.

Definition newline_indent (indent level : nat) : string :=
  String (ascii_of_nat 10) (spaces (indent * level)).

Definition int_str (z : Z) : string :=
  DecimalString.NilZero.string_of_int (Z.to_int z).

Fixpoint iterencode (indent level : nat) (o : value) {struct o} : string :=
  match o with
  | VStr s => encode_basestring_ascii s
  | VNone => "null"
  | VBool true => "true"
  | VBool false => "false"
  | VInt z => int_str z
  | VFloat f => float_repr f
  | VList [] => "[]"
  | VList items =>
      "[" ++ newline_indent indent (S level)
          ++ String.concat ("," ++ newline_indent indent (S level))
               (map (iterencode indent (S level)) items)
          ++ newline_indent indent level ++ "]"
  | VDict [] => "{}"
  | VDict entries =>
      "{" ++ newline_indent indent (S level)
          ++ String.concat ("," ++ newline_indent indent (S level))
               (map (fun kv => encode_basestring_ascii (fst kv) ++ ": "
                               ++ iterencode indent (S level) (snd kv))
                    entries)
          ++ newline_indent indent level ++ "}"
  end.

Definition json_dumps (indent : nat) (o : value) : string :=
  iterencode indent 0 o.

(** *** The batch *)

(** The line printed for a target: [f"Analyzing {model}/{contract}..."]. *)
Definition progress_line (model contract : string) : string :=
  "Analyzing " ++ model ++ "/" ++ contract ++ "...".

(** One turn of the [for] loop on the dictionary built so far. *)
Definition loop_body (combined_results : dict) (sol_path : path) : M dict :=
  if too_shallow sol_path then ret combined_results
  else
    let model := nth 1 (parts sol_path) EmptyString in
    let contract := stem sol_path in
    print (progress_line model contract) ;;;
    solc <- run_solc_check (path_str sol_path) ;;
    slither <- run_slither_check (path_str sol_path) ;;
    ret (dict_set (model ++ "/" ++ contract)
                  (VDict [("solc", solc); ("slither", slither)])
                  combined_results).

(** The [for] loop over the paths that [rglob] yields, in that order. *)
Fixpoint analyze_loop (discovered : list path) (combined_results : dict)
  : M dict :=
  match discovered with
  | [] => ret combined_results
  | sol_path :: rest =>
      combined_results' <- loop_body combined_results sol_path ;;
      analyze_loop rest combined_results'
  end.

(** [analyze_all_contracts()], on the paths that
    [Path(BASE_DIR).rglob("*.sol")] yields. *)
Definition analyze_all_contracts (discovered : list path) : M unit :=
  combined_results <- analyze_loop discovered [] ;;
  write_report (json_dumps 2 (VDict combined_results)) ;;;
  print "✅ Full report written to analysis_reports/full_analysis_report.json".

(** *** Predicates used in the statements *)

(** The state after the progress line of a target is printed. *)
Definition announced (p : path) (st : State) : State :=
  snd (print (progress_line (nth 1 (parts p) EmptyString) (stem p)) st).

(** No subprocess call is cut short by a [BaseException] that is not an
    [Exception]: every call either completes or fails with an
    [Exception] (a missing binary, an OS error, undecodable output). *)
Definition no_interrupt : Prop :=
  forall argv w msg w', subprocess_run argv w <> (BaseExc msg, w').

(** The two fields that every result dictionary of a check carries. *)
Definition is_tool_result (sol_file : string) (r : value) : Prop :=
  value_get "file" r = Some (VStr sol_file) /\
  exists b, value_get "success" r = Some (VBool b).

(** An entry of the aggregate made for the target [p]. *)
Definition entry_of (p : path) (e : value) : Prop :=
  exists solc slither,
    e = VDict [("solc", solc); ("slither", slither)] /\
    is_tool_result (path_str p) solc /\
    is_tool_result (path_str p) slither.

(** The aggregate built from the targets [seen]: its keys are distinct,
    they are the keys of the targets that were not skipped, and each
    entry was made for one of them. *)
Definition well_keyed (seen : list path) (agg : dict) : Prop :=
  NoDup (dict_keys agg) /\
  (forall k, In k (dict_keys agg) <->
             exists p, In p seen /\ too_shallow p = false /\ target_key p = k) /\
  (forall k e, dict_get k agg = Some e ->
               exists p, In p seen /\ too_shallow p = false /\
                         target_key p = k /\ entry_of p e).

(** A computation that neither reads nor writes the report file. *)
Definition report_blind {A : Type} (c : M A) : Prop :=
  forall r st, c (set_report r st) = (fst (c st), set_report r (snd (c st))).

(** A line feed, as the encoder writes it before each indentation. *)
Definition nl : string := String (ascii_of_nat 10) EmptyString.

(** The targets that pass the depth test of the loop. *)
Definition kept (discovered : list path) : list path :=
  filter (fun p => negb (too_shallow p)) discovered.

(** The progress line of a target and the last line of a run. *)
Definition progress_of (p : path) : string :=
  progress_line (nth 1 (parts p) EmptyString) (stem p).

Definition final_line : string :=
  "✅ Full report written to analysis_reports/full_analysis_report.json".

(** The two command lines of a target, in the order the loop runs them. *)
Definition commands (p : path) : list (list string) :=
  [solc_argv (path_str p); slither_argv (path_str p)].

(** The world after a list of command lines is run, one after the
    other. *)
Definition replay (argvs : list (list string)) (w : World) : World :=
  fold_left (fun w' argv => snd (subprocess_run argv w')) argvs w.

(** A list of keys without the later copies of each key. *)
Fixpoint first_occurrences (keys : list string) : list string :=
  match keys with
  | [] => []
  | k :: rest =>
      k :: filter (fun k' => negb (String.eqb k' k)) (first_occurrences rest)
  end.

(** A target that lies right in a model directory under [root]: a model
    directory name without a slash and a file name [s.sol] with [s] not
    empty. *)
Definition flat_target (root : string) (p : path) : Prop :=
  exists model s,
    p = [root; model; s ++ ".sol"] /\
    s <> EmptyString /\ rfind "/" model = None.

(** The entry made from what the two checks return for the target [p]
    when its turn starts in the state [st0]. *)
Definition results_of (st0 : State) (p : path) (e : value) : Prop :=
  exists solc st1 slither st2,
    run_solc_check (path_str p) (announced p st0) = (Ret solc, st1) /\
    run_slither_check (path_str p) st1 = (Ret slither, st2) /\
    e = VDict [("solc", solc); ("slither", slither)].

(** *** JSON text with two spaces per level, line by line

    A value is laid out on one line or more; the first line goes on
    where the text stands (after a key, or at the start of a member), so
    it carries no indentation of its own.  A container of depth [d] opens
    on that line, puts each member on lines that start [2 * (d + 1)]
    spaces in, with a comma at the end of every member but the last, and
    closes on a line of its own [2 * d] spaces in.  An empty container is
    written closed on the spot. *)

Definition add_comma (ls : list string) : list string :=
  (removelast ls ++ [(last ls EmptyString ++ ",")%string])%list.

(** The lines of a member: its first line is moved in by [ind] and
    follows the prefix [pre] (a key and a colon, or nothing). *)
Definition place (ind pre : string) (ls : list string) : list string :=
  match ls with
  | [] => [ind ++ pre]
  | l :: r => (ind ++ pre ++ l) :: r
  end.

Fixpoint members (ind : string) (ms : list (string * list string))
  : list string :=
  match ms with
  | [] => []
  | (pre, ls) :: ms' =>
      match ms' with
      | [] => place ind pre ls
      | _ :: _ => (add_comma (place ind pre ls) ++ members ind ms')%list
      end
  end.

Fixpoint layout (d : nat) (v : value) {struct v} : list string :=
  match v with
  | VNone => ["null"]
  | VBool true => ["true"]
  | VBool false => ["false"]
  | VInt z => [int_str z]
  | VFloat f => [float_repr f]
  | VStr s => [encode_basestring_ascii s]
  | VList [] => ["[]"]
  | VList items =>
      ("[" :: members (spaces (2 * S d))
                      (map (fun x => (EmptyString, layout (S d) x)) items)
           ++ [(spaces (2 * d) ++ "]")%string])%list
  | VDict [] => ["{}"]
  | VDict entries =>
      ("{" :: members (spaces (2 * S d))
                      (map (fun kv =>
                              ((encode_basestring_ascii (fst kv) ++ ": ")%string,
                               layout (S d) (snd kv)))
                           entries)
           ++ [(spaces (2 * d) ++ "}")%string])%list
  end.

(** The lines put together, a line feed between two lines. *)
Definition text_of_lines (ls : list string) : string := String.concat nl ls.

(** A line that starts at least [n] spaces in. *)
Definition moved_in (n : nat) (l : string) : Prop :=
  exists rest, l = spaces n ++ rest.

Unset Implicit Arguments.

(** ** Dictionaries *)

Lemma dict_get_set_same (k : string) (v : value) (d : dict) :
  dict_get k (dict_set k v d) = Some v.
Proof.
  induction d as [|[k' v'] d IH]; simpl.
  - now rewrite String.eqb_refl.
  - destruct (String.eqb k' k) eqn:E; simpl; rewrite E; auto.
Qed.

Lemma dict_get_set_other (k k' : string) (v : value) (d : dict) :
  k' <> k -> dict_get k' (dict_set k v d) = dict_get k' d.
Proof.
  intros Hne.
  induction d as [|[k0 v0] d IH]; simpl.
  - destruct (String.eqb_spec k k'); congruence.
  - destruct (String.eqb_spec k0 k) as [->|Hk]; simpl.
    + destruct (String.eqb_spec k k'); congruence.
    + destruct (String.eqb_spec k0 k'); auto.
Qed.

Lemma dict_keys_set (k k' : string) (v : value) (d : dict) :
  In k' (dict_keys (dict_set k v d)) <-> k' = k \/ In k' (dict_keys d).
Proof.
  induction d as [|[k0 v0] d IH]; simpl.
  - split; [intros [E|[]]; left; now symmetry | intros [E|[]]; left; now symmetry].
  - destruct (String.eqb_spec k0 k) as [->|Hk]; simpl.
    + split; [intros [E|Hin]; [left; now symmetry | right; now right]|].
      intros [E|[E|Hin]]; [left; now symmetry | now left | now right].
    + rewrite IH. split.
      * intros [E|[E|Hin]]; [right; now left | now left | right; now right].
      * intros [E|[E|Hin]]; [right; now left | now left | right; now right].
Qed.

Lemma dict_keys_set_NoDup (k : string) (v : value) (d : dict) :
  NoDup (dict_keys d) -> NoDup (dict_keys (dict_set k v d)).
Proof.
  induction d as [|[k0 v0] d IH]; simpl; intros Hnd.
  - constructor; [intros [] | constructor].
  - inversion Hnd as [|? ? Hnotin Hnd']; subst.
    destruct (String.eqb_spec k0 k) as [->|Hk]; simpl.
    + now constructor.
    + constructor; [|now apply IH].
      intros Hin. apply dict_keys_set in Hin.
      destruct Hin as [->|Hin]; [now apply Hk | now apply Hnotin].
Qed.

Lemma dict_get_Some_key (k : string) (e : value) (d : dict) :
  dict_get k d = Some e -> In k (dict_keys d).
Proof.
  induction d as [|[k0 v0] d IH]; simpl; [discriminate|].
  destruct (String.eqb_spec k0 k) as [->|Hk]; auto.
Qed.

Lemma dict_key_get (k : string) (d : dict) :
  In k (dict_keys d) -> exists e, dict_get k d = Some e.
Proof.
  induction d as [|[k0 v0] d IH]; simpl; [intros []|].
  intros [->|Hin].
  - rewrite String.eqb_refl. now exists v0.
  - destruct (String.eqb k0 k); [now exists v0 | now apply IH].
Qed.

(** ** Strings *)

Lemma append_assoc (a b c : string) : (a ++ b) ++ c = a ++ (b ++ c).
Proof. induction a as [|x a IH]; simpl; [reflexivity | now rewrite IH]. Qed.

(** ** Stems *)

Lemma rfind_dot_sol (s : string) :
  rfind "." (s ++ ".sol") = Some (String.length s).
Proof.
  induction s as [|a s IH]; [reflexivity|].
  simpl. now rewrite IH.
Qed.

Lemma length_append_sol (s : string) :
  String.length (s ++ ".sol") = String.length s + 4.
Proof.
  induction s as [|a s IH]; simpl; [reflexivity | now rewrite IH].
Qed.

Lemma substring_append_prefix (s t : string) :
  substring 0 (String.length s) (s ++ t) = s.
Proof.
  induction s as [|a s IH]; simpl.
  - now destruct t.
  - now rewrite IH.
Qed.

(** For a file named [s.sol] with [s] not empty the stem is [s]. *)
Lemma stem_sol (p : path) (s : string) :
  name p = s ++ ".sol" -> s <> EmptyString -> stem p = s.
Proof.
  intros Hname Hs. unfold stem. rewrite Hname, rfind_dot_sol.
  rewrite length_append_sol.
  destruct s as [|a s]; [congruence|].
  replace ((0 <? String.length (String a s))%nat) with true by reflexivity.
  replace ((String.length (String a s) <? String.length (String a s) + 4 - 1)%nat)
    with true by (symmetry; apply Nat.ltb_lt; lia).
  simpl andb. cbv iota. apply substring_append_prefix.
Qed.

Lemma too_shallow_false (p : path) :
  too_shallow p = false <-> 3 <= List.length (parts p).
Proof.
  unfold too_shallow. rewrite Nat.ltb_ge. reflexivity.
Qed.

(** ** The checks, outcome by outcome *)

Lemma run_solc_check_launched (f : string) (st : State)
      (cp : CompletedProcess) (w' : World) :
  subprocess_run (solc_argv f) (world st) = (Ret cp, w') ->
  run_solc_check f st =
    (Ret (VDict [("file", VStr f);
                 ("success", VBool (returncode cp =? 0)%Z);
                 ("solc_output",
                  VStr (if (returncode cp =? 0)%Z
                        then stdout cp else stderr cp))]),
     set_world w' st).
Proof.
  intros H. unfold run_solc_check, try_except, solc_try, bind, run.
  now rewrite H.
Qed.

Lemma run_solc_check_failed (f : string) (st : State)
      (msg : string) (w' : World) :
  subprocess_run (solc_argv f) (world st) = (Exc msg, w') ->
  run_solc_check f st = (Ret (error_result f msg), set_world w' st).
Proof.
  intros H. unfold run_solc_check, try_except, solc_try, bind, run.
  now rewrite H.
Qed.

Lemma run_solc_check_interrupted (f : string) (st : State)
      (msg : string) (w' : World) :
  subprocess_run (solc_argv f) (world st) = (BaseExc msg, w') ->
  run_solc_check f st = (BaseExc msg, set_world w' st).
Proof.
  intros H. unfold run_solc_check, try_except, solc_try, bind, run.
  now rewrite H.
Qed.

Lemma run_slither_check_failed (f : string) (st : State)
      (msg : string) (w' : World) :
  subprocess_run (slither_argv f) (world st) = (Exc msg, w') ->
  run_slither_check f st = (Ret (error_result f msg), set_world w' st).
Proof.
  intros H. unfold run_slither_check, try_except, slither_try, bind, run.
  now rewrite H.
Qed.

Lemma run_slither_check_interrupted (f : string) (st : State)
      (msg : string) (w' : World) :
  subprocess_run (slither_argv f) (world st) = (BaseExc msg, w') ->
  run_slither_check f st = (BaseExc msg, set_world w' st).
Proof.
  intros H. unfold run_slither_check, try_except, slither_try, bind, run.
  now rewrite H.
Qed.

Lemma run_slither_check_silent (f : string) (st : State)
      (cp : CompletedProcess) (w' : World) :
  subprocess_run (slither_argv f) (world st) = (Ret cp, w') ->
  slither_selected cp = EmptyString ->
  run_slither_check f st =
    (Ret (VDict [("file", VStr f);
                 ("success", VBool (returncode cp =? 0)%Z);
                 ("slither_output", VDict [])]),
     set_world w' st).
Proof.
  intros H Hsel.
  unfold run_slither_check, try_except, slither_try, bind, run.
  rewrite H. fold (slither_selected cp). now rewrite Hsel.
Qed.

Lemma run_slither_check_parsed (f : string) (st : State)
      (cp : CompletedProcess) (w' : World) (j : value) :
  subprocess_run (slither_argv f) (world st) = (Ret cp, w') ->
  slither_selected cp <> EmptyString ->
  json_loads (slither_selected cp) = Parsed j ->
  run_slither_check f st =
    (Ret (VDict [("file", VStr f);
                 ("success", VBool (returncode cp =? 0)%Z);
                 ("slither_output", j)]),
     set_world w' st).
Proof.
  intros H Hne Hj.
  unfold run_slither_check, try_except, slither_try, bind, run, loads.
  rewrite H. fold (slither_selected cp).
  destruct (slither_selected cp) eqn:E; [congruence|].
  simpl str_truthy. cbv iota. now rewrite Hj.
Qed.

Lemma run_slither_check_not_json (f : string) (st : State)
      (cp : CompletedProcess) (w' : World) (msg : string) :
  subprocess_run (slither_argv f) (world st) = (Ret cp, w') ->
  slither_selected cp <> EmptyString ->
  json_loads (slither_selected cp) = JSONDecodeError msg ->
  run_slither_check f st = (Ret (error_result f msg), set_world w' st).
Proof.
  intros H Hne Hj.
  unfold run_slither_check, try_except, slither_try, bind, run, loads.
  rewrite H. fold (slither_selected cp).
  destruct (slither_selected cp) eqn:E; [congruence|].
  simpl str_truthy. cbv iota. now rewrite Hj.
Qed.

(** The stream that is parsed, said without the helper: standard output
    unless it is empty. *)
Lemma slither_selected_spec (cp : CompletedProcess) :
  slither_selected cp =
    match stdout cp with
    | EmptyString => stderr cp
    | String _ _ => stdout cp
    end.
Proof. unfold slither_selected. now destruct (stdout cp). Qed.

(** ** What the compiler check returns *)

(** C2.  When the [solc] subprocess launches and completes, the check
    returns a result whose [success] is true exactly when the exit code is
    zero; [solc_output] is the captured standard output when the exit code
    is zero and the captured standard error when it is not. *)
Theorem solc_success_iff_exit_zero (f : string) (st : State)
        (cp : CompletedProcess) (w' : World) :
  subprocess_run (solc_argv f) (world st) = (Ret cp, w') ->
  exists r,
    run_solc_check f st = (Ret r, set_world w' st) /\
    (value_get "success" r = Some (VBool true) <-> returncode cp = 0%Z) /\
    (returncode cp = 0%Z ->
     value_get "solc_output" r = Some (VStr (stdout cp))) /\
    (returncode cp <> 0%Z ->
     value_get "success" r = Some (VBool false) /\
     value_get "solc_output" r = Some (VStr (stderr cp))).
Proof.
  intros H. eexists. split; [apply (run_solc_check_launched _ _ _ _ H)|].
  simpl. destruct (Z.eqb_spec (returncode cp) 0) as [E|E].
  - repeat split; auto; intros; congruence.
  - repeat split; auto; intros; congruence.
Qed.

(** ** What the linter check returns *)

(** C3.  When the [slither] subprocess launches and the selected stream
    (standard output if it is not empty, standard error otherwise) parses
    as JSON, the check returns [success] equal to (exit code = 0) and
    [slither_output] equal to the parsed value.  The empty text is not a
    JSON document, which is the one fact about [json.loads] that is
    used. *)
Theorem slither_output_is_parsed_stream (f : string) (st : State)
        (cp : CompletedProcess) (w' : World) (j : value) :
  (forall v, json_loads EmptyString <> Parsed v) ->
  subprocess_run (slither_argv f) (world st) = (Ret cp, w') ->
  json_loads (match stdout cp with
              | EmptyString => stderr cp
              | String _ _ => stdout cp
              end) = Parsed j ->
  exists r,
    run_slither_check f st = (Ret r, set_world w' st) /\
    value_get "success" r = Some (VBool (returncode cp =? 0)%Z) /\
    value_get "slither_output" r = Some j /\
    value_get "error" r = None.
Proof.
  intros Hempty H Hj. rewrite <- slither_selected_spec in Hj.
  assert (Hne : slither_selected cp <> EmptyString).
  { intros E. rewrite E in Hj. now apply (Hempty j). }
  eexists. split; [apply (run_slither_check_parsed _ _ _ _ _ H Hne Hj)|].
  repeat split.
Qed.

(** C8.  When the [slither] subprocess launches and both captured streams
    are empty, nothing is parsed: [slither_output] is the empty dictionary,
    there is no [error] field, and [success] is (exit code = 0). *)
Theorem slither_silent_gives_empty_object (f : string) (st : State)
        (cp : CompletedProcess) (w' : World) :
  subprocess_run (slither_argv f) (world st) = (Ret cp, w') ->
  stdout cp = EmptyString ->
  stderr cp = EmptyString ->
  run_slither_check f st =
    (Ret (VDict [("file", VStr f);
                 ("success", VBool (returncode cp =? 0)%Z);
                 ("slither_output", VDict [])]),
     set_world w' st) /\
  forall r, fst (run_slither_check f st) = Ret r ->
            value_get "slither_output" r = Some (VDict []) /\
            value_get "error" r = None /\
            (value_get "success" r = Some (VBool true) <->
             returncode cp = 0%Z).
Proof.
  intros H Hout Herr.
  assert (Hsel : slither_selected cp = EmptyString).
  { rewrite slither_selected_spec, Hout. exact Herr. }
  pose proof (run_slither_check_silent _ _ _ _ H Hsel) as Heq.
  split; [exact Heq|].
  intros r Hr. rewrite Heq in Hr. simpl in Hr.
  injection Hr as <-. simpl.
  destruct (Z.eqb_spec (returncode cp) 0); repeat split; auto;
    intros; congruence.
Qed.

(** ** What every returned result carries *)

Lemma solc_check_outcome (f : string) (st : State) :
  match run_solc_check f st with
  | (Ret r, st') =>
      is_tool_result f r /\
      console st' = console st /\ report_file st' = report_file st
  | (Exc _, _) => False
  | (BaseExc msg, _) =>
      exists w', subprocess_run (solc_argv f) (world st) = (BaseExc msg, w')
  end.
Proof.
  destruct (subprocess_run (solc_argv f) (world st)) as [[cp|msg|msg] w'] eqn:H.
  - rewrite (run_solc_check_launched _ _ _ _ H). repeat split; simpl; eauto.
  - rewrite (run_solc_check_failed _ _ _ _ H). repeat split; simpl; eauto.
  - rewrite (run_solc_check_interrupted _ _ _ _ H). eauto.
Qed.

Lemma slither_check_outcome (f : string) (st : State) :
  match run_slither_check f st with
  | (Ret r, st') =>
      is_tool_result f r /\
      console st' = console st /\ report_file st' = report_file st
  | (Exc _, _) => False
  | (BaseExc msg, _) =>
      exists w', subprocess_run (slither_argv f) (world st) = (BaseExc msg, w')
  end.
Proof.
  destruct (subprocess_run (slither_argv f) (world st)) as [[cp|msg|msg] w'] eqn:H.
  - destruct (slither_selected cp) as [|a t] eqn:Hsel.
    + rewrite (run_slither_check_silent _ _ _ _ H Hsel).
      repeat split; simpl; eauto.
    + assert (Hne : slither_selected cp <> EmptyString) by congruence.
      destruct (json_loads (slither_selected cp)) as [j|msg] eqn:Hj.
      * rewrite (run_slither_check_parsed _ _ _ _ _ H Hne Hj).
        repeat split; simpl; eauto.
      * rewrite (run_slither_check_not_json _ _ _ _ _ H Hne Hj).
        repeat split; simpl; eauto.
  - rewrite (run_slither_check_failed _ _ _ _ H). repeat split; simpl; eauto.
  - rewrite (run_slither_check_interrupted _ _ _ _ H). eauto.
Qed.

(** C9.  Whatever the subprocess does, a check that returns hands back a
    dictionary with a [file] field equal to the path string it was called
    with and a boolean [success] field; it never lets an [Exception]
    through, and it fails to return only when the subprocess call itself
    was cut short by a [BaseException]. *)
Theorem tool_result_has_file_and_success (f : string) (st : State) :
  match run_solc_check f st with
  | (Ret r, _) => is_tool_result f r
  | (Exc _, _) => False
  | (BaseExc msg, _) =>
      exists w', subprocess_run (solc_argv f) (world st) = (BaseExc msg, w')
  end /\
  match run_slither_check f st with
  | (Ret r, _) => is_tool_result f r
  | (Exc _, _) => False
  | (BaseExc msg, _) =>
      exists w', subprocess_run (slither_argv f) (world st) = (BaseExc msg, w')
  end.
Proof.
  split.
  - pose proof (solc_check_outcome f st) as Hc.
    destruct (run_solc_check f st) as [[r|m|m] st1];
      [exact (proj1 Hc) | exact Hc | exact Hc].
  - pose proof (slither_check_outcome f st) as Hl.
    destruct (run_slither_check f st) as [[r|m|m] st1];
      [exact (proj1 Hl) | exact Hl | exact Hl].
Qed.

(** C10.  When a check ends in its [except] branch (the subprocess call
    raised an [Exception], or for the linter the selected text is not
    JSON, whatever the exit code was), the returned dictionary has
    [success] false, has an [error] field with the message, and has
    neither [solc_output] nor [slither_output]. *)
Theorem except_branch_result (f : string) (st : State) (msg : string)
        (w' : World) (r : result value * State) :
  (subprocess_run (solc_argv f) (world st) = (Exc msg, w') /\
   r = run_solc_check f st) \/
  (subprocess_run (slither_argv f) (world st) = (Exc msg, w') /\
   r = run_slither_check f st) \/
  (exists cp,
      subprocess_run (slither_argv f) (world st) = (Ret cp, w') /\
      slither_selected cp <> EmptyString /\
      json_loads (slither_selected cp) = JSONDecodeError msg /\
      r = run_slither_check f st) ->
  exists d,
    r = (Ret (VDict d), set_world w' st) /\
    dict_get "file" d = Some (VStr f) /\
    dict_get "success" d = Some (VBool false) /\
    dict_get "error" d = Some (VStr msg) /\
    dict_get "solc_output" d = None /\
    dict_get "slither_output" d = None.
Proof.
  intros [[H ->]|[[H ->]|[cp [H [Hne [Hj ->]]]]]].
  - rewrite (run_solc_check_failed _ _ _ _ H).
    eexists. split; [reflexivity|]. repeat split.
  - rewrite (run_slither_check_failed _ _ _ _ H).
    eexists. split; [reflexivity|]. repeat split.
  - rewrite (run_slither_check_not_json _ _ _ _ _ H Hne Hj).
    eexists. split; [reflexivity|]. repeat split.
Qed.

(** ** One turn of the loop *)

Lemma solc_check_returns (f : string) (st : State) :
  no_interrupt ->
  exists r st',
    run_solc_check f st = (Ret r, st') /\ is_tool_result f r /\
    console st' = console st /\ report_file st' = report_file st.
Proof.
  intros Hni. pose proof (solc_check_outcome f st) as Hc.
  destruct (run_solc_check f st) as [[r|m|m] st'].
  - exists r, st'. destruct Hc as [T [C R]].
    split; [reflexivity|]. split; [exact T|]. split; assumption.
  - contradiction.
  - destruct Hc as [w' Hw]. now apply Hni in Hw.
Qed.

Lemma slither_check_returns (f : string) (st : State) :
  no_interrupt ->
  exists r st',
    run_slither_check f st = (Ret r, st') /\ is_tool_result f r /\
    console st' = console st /\ report_file st' = report_file st.
Proof.
  intros Hni. pose proof (slither_check_outcome f st) as Hc.
  destruct (run_slither_check f st) as [[r|m|m] st'].
  - exists r, st'. destruct Hc as [T [C R]].
    split; [reflexivity|]. split; [exact T|]. split; assumption.
  - contradiction.
  - destruct Hc as [w' Hw]. now apply Hni in Hw.
Qed.

Lemma loop_body_shallow (agg : dict) (p : path) (st : State) :
  too_shallow p = true -> loop_body agg p st = (Ret agg, st).
Proof. intros H. unfold loop_body. now rewrite H. Qed.

Lemma loop_body_deep (agg : dict) (p : path) (st st1 st2 : State)
      (solc slither : value) :
  too_shallow p = false ->
  run_solc_check (path_str p) (announced p st) = (Ret solc, st1) ->
  run_slither_check (path_str p) st1 = (Ret slither, st2) ->
  loop_body agg p st =
    (Ret (dict_set (target_key p)
                   (VDict [("solc", solc); ("slither", slither)]) agg),
     st2).
Proof.
  intros Hd H1 H2. unfold loop_body. rewrite Hd.
  unfold bind at 1. unfold print at 1.
  unfold announced, print in H1. simpl snd in H1.
  unfold bind at 1. rewrite H1.
  unfold bind at 1. rewrite H2. reflexivity.
Qed.

Lemma loop_body_returns (agg : dict) (p : path) (st : State) :
  no_interrupt ->
  exists agg' st',
    loop_body agg p st = (Ret agg', st') /\
    report_file st' = report_file st /\
    ((too_shallow p = true /\ agg' = agg /\ st' = st) \/
     (too_shallow p = false /\
      exists e, entry_of p e /\ agg' = dict_set (target_key p) e agg)).
Proof.
  intros Hni. destruct (too_shallow p) eqn:Hd.
  - exists agg, st. rewrite (loop_body_shallow _ _ _ Hd).
    split; [reflexivity|]. split; [reflexivity|]. left. auto.
  - destruct (solc_check_returns (path_str p) (announced p st) Hni)
      as [solc [st1 [H1 [T1 [_ R1]]]]].
    destruct (slither_check_returns (path_str p) st1 Hni)
      as [slither [st2 [H2 [T2 [_ R2]]]]].
    eexists. exists st2.
    split; [apply (loop_body_deep agg p st st1 st2 solc slither Hd H1 H2)|].
    split; [rewrite R2, R1; reflexivity|].
    right. split; [reflexivity|].
    eexists. split; [|reflexivity].
    exists solc, slither. auto.
Qed.

(** ** The invariant of the loop *)

Lemma well_keyed_nil : well_keyed [] [].
Proof.
  split; [constructor|]. split.
  - intros k. simpl. split; [intros [] | intros [p [[] _]]].
  - intros k e H. discriminate H.
Qed.

Lemma well_keyed_skip (seen : list path) (agg : dict) (p : path) :
  well_keyed seen agg -> too_shallow p = true ->
  well_keyed (seen ++ [p])%list agg.
Proof.
  intros [Hnd [Hkeys Hent]] Hs. split; [exact Hnd|]. split.
  - intros k. rewrite Hkeys. split.
    + intros [q [Hq Hrest]]. exists q. split; [|exact Hrest].
      apply in_or_app. now left.
    + intros [q [Hq [Hd Hk]]]. apply in_app_or in Hq.
      destruct Hq as [Hq|[<-|[]]]; [now exists q | congruence].
  - intros k e H. destruct (Hent k e H) as [q [Hq Hrest]].
    exists q. split; [|exact Hrest]. apply in_or_app. now left.
Qed.

Lemma well_keyed_set (seen : list path) (agg : dict) (p : path) (e : value) :
  well_keyed seen agg -> too_shallow p = false -> entry_of p e ->
  well_keyed (seen ++ [p])%list (dict_set (target_key p) e agg).
Proof.
  intros [Hnd [Hkeys Hent]] Hd He. split; [|split].
  - now apply dict_keys_set_NoDup.
  - intros k. rewrite dict_keys_set, Hkeys. split.
    + intros [->|[q [Hq Hrest]]].
      * exists p. split; [apply in_or_app; right; now left | auto].
      * exists q. split; [apply in_or_app; now left | exact Hrest].
    + intros [q [Hq [Hqd Hk]]]. apply in_app_or in Hq.
      destruct Hq as [Hq|[<-|[]]]; [right; now exists q | now left].
  - intros k e' H. destruct (string_dec k (target_key p)) as [->|Hne].
    + rewrite dict_get_set_same in H. injection H as <-.
      exists p. split; [apply in_or_app; right; now left | auto].
    + rewrite (dict_get_set_other _ _ e agg Hne) in H.
      destruct (Hent k e' H) as [q [Hq Hrest]].
      exists q. split; [apply in_or_app; now left | exact Hrest].
Qed.

Lemma analyze_loop_cons (p : path) (rest : list path) (agg agg' : dict)
      (st st' : State) :
  loop_body agg p st = (Ret agg', st') ->
  analyze_loop (p :: rest) agg st = analyze_loop rest agg' st'.
Proof. intros H. simpl. unfold bind. now rewrite H. Qed.

Lemma analyze_loop_well_keyed (discovered : list path) :
  no_interrupt ->
  forall (seen : list path) (agg : dict) (st : State),
    well_keyed seen agg ->
    exists agg' st',
      analyze_loop discovered agg st = (Ret agg', st') /\
      well_keyed (seen ++ discovered)%list agg' /\
      report_file st' = report_file st.
Proof.
  intros Hni. induction discovered as [|p rest IH]; intros seen agg st Hwk.
  - exists agg, st. rewrite app_nil_r. auto.
  - destruct (loop_body_returns agg p st Hni)
      as [agg1 [st1 [Hbody [Hrep Hcase]]]].
    assert (Hwk1 : well_keyed (seen ++ [p])%list agg1).
    { destruct Hcase as [[Hs [-> _]]|[Hd [e [He ->]]]].
      - now apply well_keyed_skip.
      - now apply well_keyed_set. }
    destruct (IH _ agg1 st1 Hwk1) as [agg2 [st2 [Hloop [Hwk2 Hrep2]]]].
    exists agg2, st2. rewrite (analyze_loop_cons p rest agg agg1 st st1 Hbody).
    rewrite <- app_assoc in Hwk2. simpl in Hwk2.
    split; [exact Hloop|]. split; [exact Hwk2|]. congruence.
Qed.

(** Targets that are skipped leave no trace: the loop does the same with
    and without them. *)
Lemma analyze_loop_filter (discovered : list path) :
  forall (agg : dict) (st : State),
    analyze_loop (filter (fun p => negb (too_shallow p)) discovered) agg st =
    analyze_loop discovered agg st.
Proof.
  induction discovered as [|p rest IH]; intros agg st; [reflexivity|].
  simpl filter. destruct (too_shallow p) eqn:Hs; simpl negb; cbv iota.
  - rewrite (analyze_loop_cons p _ agg agg st st (loop_body_shallow agg p st Hs)).
    apply IH.
  - simpl. unfold bind.
    destruct (loop_body agg p st) as [[a|m|m] st']; auto.
Qed.

Lemma deep_filter_ext (discovered : list path) :
  filter (fun p => (3 <=? List.length (parts p))%nat) discovered =
  filter (fun p => negb (too_shallow p)) discovered.
Proof.
  apply filter_ext. intros p. unfold too_shallow.
  rewrite Nat.ltb_antisym. now rewrite negb_involutive.
Qed.

(** ** The aggregate *)

(** C1 (as the code has it).  For a discovered path with at least 3
    components, the key under which its two results are stored is the
    second component of the path (the directory right under the root)
    followed by a slash and the stem of the file name.  The turn of the
    loop for this path stores its results under that key, and the key is
    present when the loop ends.  When the path has exactly 3 components
    the second component is the parent directory, and for a file named
    [s.sol] with a non-empty [s] the stem is [s]. *)
Theorem key_is_model_slash_stem (discovered : list path) (st : State)
        (p : path) :
  no_interrupt -> In p discovered -> 3 <= List.length (parts p) ->
  let key := nth 1 (parts p) EmptyString ++ "/" ++ stem p in
  (exists agg st' e,
      analyze_loop discovered [] st = (Ret agg, st') /\
      dict_get key agg = Some e) /\
  (forall acc st0, exists solc slither st1,
      loop_body acc p st0 =
        (Ret (dict_set key (VDict [("solc", solc); ("slither", slither)]) acc),
         st1) /\
      is_tool_result (path_str p) solc /\
      is_tool_result (path_str p) slither) /\
  (List.length (parts p) = 3 ->
   nth 1 (parts p) EmptyString = parent_name p) /\
  (forall s, s <> EmptyString -> name p = s ++ ".sol" -> stem p = s).
Proof.
  intros Hni Hin Hlen key. apply too_shallow_false in Hlen.
  split; [|split; [|split]].
  - destruct (analyze_loop_well_keyed discovered Hni [] [] st well_keyed_nil)
      as [agg [st' [Hloop [[_ [Hkeys _]] _]]]].
    simpl in Hkeys.
    destruct (dict_key_get key agg) as [e He].
    { apply Hkeys. exists p. auto. }
    now exists agg, st', e.
  - intros acc st0.
    destruct (solc_check_returns (path_str p) (announced p st0) Hni)
      as [solc [st1 [H1 [T1 _]]]].
    destruct (slither_check_returns (path_str p) st1 Hni)
      as [slither [st2 [H2 [T2 _]]]].
    exists solc, slither, st2.
    split; [apply (loop_body_deep acc p st0 st1 st2 solc slither Hlen H1 H2)|].
    auto.
  - intros H3. unfold parent_name, parts in *. now rewrite H3.
  - intros s Hs Hn. now apply stem_sol.
Qed.

(** ** Failures do not stop the batch *)

(** C4.  When the linter launches and the selected text is not empty and
    is not JSON, the check returns a result that carries the message of the
    parse failure in its [error] field; nothing is raised.  In the loop the
    target is recorded with this result next to the compiler's result and
    the loop goes on with the remaining targets. *)
Theorem non_json_linter_output_is_recorded :
  (forall f st cp w' msg,
      subprocess_run (slither_argv f) (world st) = (Ret cp, w') ->
      slither_selected cp <> EmptyString ->
      json_loads (slither_selected cp) = JSONDecodeError msg ->
      exists r,
        run_slither_check f st = (Ret r, set_world w' st) /\
        value_get "file" r = Some (VStr f) /\
        value_get "error" r = Some (VStr msg)) /\
  (forall p rest agg st solc st1 cp w2 msg,
      3 <= List.length (parts p) ->
      run_solc_check (path_str p) (announced p st) = (Ret solc, st1) ->
      subprocess_run (slither_argv (path_str p)) (world st1) = (Ret cp, w2) ->
      slither_selected cp <> EmptyString ->
      json_loads (slither_selected cp) = JSONDecodeError msg ->
      analyze_loop (p :: rest) agg st =
      analyze_loop rest
        (dict_set (target_key p)
                  (VDict [("solc", solc);
                          ("slither", error_result (path_str p) msg)])
                  agg)
        (set_world w2 st1)).
Proof.
  split.
  - intros f st cp w' msg H Hne Hj. eexists.
    split; [apply (run_slither_check_not_json _ _ _ _ _ H Hne Hj)|].
    split; reflexivity.
  - intros p rest agg st solc st1 cp w2 msg Hlen H1 H2 Hne Hj.
    apply analyze_loop_cons. apply too_shallow_false in Hlen.
    apply (loop_body_deep agg p st st1 (set_world w2 st1) _ _ Hlen H1).
    apply (run_slither_check_not_json _ _ _ _ _ H2 Hne Hj).
Qed.

(** ** The report file *)

Lemma report_blind_bind {A B : Type} (c : M A) (k : A -> M B) :
  report_blind c -> (forall a, report_blind (k a)) -> report_blind (bind c k).
Proof.
  intros Hc Hk r st. unfold bind. rewrite Hc.
  destruct (c st) as [[a|m|m] st1]; simpl; auto. apply Hk.
Qed.

Lemma report_blind_try {A : Type} (c : M A) (h : string -> M A) :
  report_blind c -> (forall m, report_blind (h m)) ->
  report_blind (try_except c h).
Proof.
  intros Hc Hh r st. unfold try_except. rewrite Hc.
  destruct (c st) as [[a|m|m] st1]; simpl; auto. apply Hh.
Qed.

Lemma report_blind_ret {A : Type} (a : A) : report_blind (ret a).
Proof. intros r st. reflexivity. Qed.

Lemma report_blind_run (argv : list string) : report_blind (run argv).
Proof.
  intros r st. unfold run. simpl.
  now destruct (subprocess_run argv (world st)).
Qed.

Lemma report_blind_loads (text : string) : report_blind (loads text).
Proof.
  intros r st. unfold loads. now destruct (json_loads text).
Qed.

Lemma report_blind_print (line : string) : report_blind (print line).
Proof. intros r st. reflexivity. Qed.

Lemma report_blind_solc (f : string) : report_blind (run_solc_check f).
Proof.
  apply report_blind_try; [|intros; apply report_blind_ret].
  apply report_blind_bind; [apply report_blind_run|].
  intros; apply report_blind_ret.
Qed.

Lemma report_blind_slither (f : string) : report_blind (run_slither_check f).
Proof.
  apply report_blind_try; [|intros; apply report_blind_ret].
  apply report_blind_bind; [apply report_blind_run|]. intros cp.
  apply report_blind_bind; [|intros; apply report_blind_ret].
  destruct (str_truthy _); [apply report_blind_loads | apply report_blind_ret].
Qed.

Lemma report_blind_body (agg : dict) (p : path) : report_blind (loop_body agg p).
Proof.
  unfold loop_body. destruct (too_shallow p); [apply report_blind_ret|].
  apply report_blind_bind; [apply report_blind_print|]. intros _.
  apply report_blind_bind; [apply report_blind_solc|]. intros solc.
  apply report_blind_bind; [apply report_blind_slither|]. intros slither.
  apply report_blind_ret.
Qed.

Lemma report_blind_loop (discovered : list path) :
  forall agg, report_blind (analyze_loop discovered agg).
Proof.
  induction discovered as [|p rest IH]; intros agg; simpl.
  - apply report_blind_ret.
  - apply report_blind_bind; [apply report_blind_body | apply IH].
Qed.

Lemma set_report_same (st : State) : set_report (report_file st) st = st.
Proof. now destruct st. Qed.

Lemma run_writes_dump (discovered : list path) (st : State) :
  no_interrupt ->
  exists agg st',
    analyze_loop discovered [] st = (Ret agg, st') /\
    forall previous, exists st'',
      analyze_all_contracts discovered (set_report previous st)
        = (Ret tt, st'') /\
      report_file st'' = Some (json_dumps 2 (VDict agg)).
Proof.
  intros Hni.
  destruct (analyze_loop_well_keyed discovered Hni [] [] st well_keyed_nil)
    as [agg [st' [Hloop _]]].
  exists agg, st'. split; [exact Hloop|].
  intros previous. unfold analyze_all_contracts, bind.
  rewrite (report_blind_loop discovered [] previous st), Hloop.
  simpl. eexists. split; reflexivity.
Qed.

(** ** What one check does to the state *)

Lemma solc_check_effects (f : string) (st : State) :
  world (snd (run_solc_check f st)) =
    snd (subprocess_run (solc_argv f) (world st)) /\
  console (snd (run_solc_check f st)) = console st /\
  report_file (snd (run_solc_check f st)) = report_file st.
Proof.
  destruct (subprocess_run (solc_argv f) (world st)) as [[cp|msg|msg] w'] eqn:H.
  - rewrite (run_solc_check_launched _ _ _ _ H). now simpl.
  - rewrite (run_solc_check_failed _ _ _ _ H). now simpl.
  - rewrite (run_solc_check_interrupted _ _ _ _ H). now simpl.
Qed.

Lemma slither_check_effects (f : string) (st : State) :
  world (snd (run_slither_check f st)) =
    snd (subprocess_run (slither_argv f) (world st)) /\
  console (snd (run_slither_check f st)) = console st /\
  report_file (snd (run_slither_check f st)) = report_file st.
Proof.
  destruct (subprocess_run (slither_argv f) (world st)) as [[cp|msg|msg] w'] eqn:H.
  - destruct (slither_selected cp) as [|a t] eqn:Hsel.
    + rewrite (run_slither_check_silent _ _ _ _ H Hsel). now simpl.
    + assert (Hne : slither_selected cp <> EmptyString) by congruence.
      destruct (json_loads (slither_selected cp)) as [j|msg] eqn:Hj.
      * rewrite (run_slither_check_parsed _ _ _ _ _ H Hne Hj). now simpl.
      * rewrite (run_slither_check_not_json _ _ _ _ _ H Hne Hj). now simpl.
  - rewrite (run_slither_check_failed _ _ _ _ H). now simpl.
  - rewrite (run_slither_check_interrupted _ _ _ _ H). now simpl.
Qed.

(** One turn of the loop on a target that is not skipped, when nothing is
    interrupted: what is stored and what happens to the state. *)
Lemma loop_body_effects (agg : dict) (p : path) (st : State) :
  no_interrupt -> too_shallow p = false ->
  exists e st',
    loop_body agg p st = (Ret (dict_set (target_key p) e agg), st') /\
    entry_of p e /\
    world st' = replay (commands p) (world st) /\
    console st' = (console st ++ [progress_of p])%list /\
    report_file st' = report_file st.
Proof.
  intros Hni Hd.
  destruct (solc_check_returns (path_str p) (announced p st) Hni)
    as [solc [st1 [H1 [T1 _]]]].
  destruct (slither_check_returns (path_str p) st1 Hni)
    as [slither [st2 [H2 [T2 _]]]].
  pose proof (solc_check_effects (path_str p) (announced p st)) as E1.
  pose proof (slither_check_effects (path_str p) st1) as E2.
  rewrite H1 in E1. rewrite H2 in E2. simpl snd in E1, E2.
  destruct E1 as [W1 [C1 R1]]. destruct E2 as [W2 [C2 R2]].
  exists (VDict [("solc", solc); ("slither", slither)]), st2.
  split; [apply (loop_body_deep agg p st st1 st2 solc slither Hd H1 H2)|].
  split; [exists solc, slither; auto|].
  split; [|split].
  - unfold replay, commands. simpl. rewrite W2, W1. reflexivity.
  - rewrite C2, C1. reflexivity.
  - rewrite R2, R1. reflexivity.
Qed.

(** ** Keys in the order of their first occurrence *)

Lemma dict_keys_set_order (k : string) (v : value) (d : dict) :
  dict_keys (dict_set k v d) =
    if existsb (String.eqb k) (dict_keys d)
    then dict_keys d else (dict_keys d ++ [k])%list.
Proof.
  induction d as [|[k0 v0] d IH]; simpl; [reflexivity|].
  rewrite (String.eqb_sym k k0).
  destruct (String.eqb k0 k) eqn:E; simpl; [reflexivity|].
  rewrite IH. now destruct (existsb (String.eqb k) (dict_keys d)).
Qed.

Lemma filter_seen_drop (k : string) (acc l : list string) :
  existsb (String.eqb k) acc = true ->
  filter (fun k' => negb (existsb (String.eqb k') acc))
         (filter (fun k' => negb (String.eqb k' k)) l) =
  filter (fun k' => negb (existsb (String.eqb k') acc)) l.
Proof.
  intros Hk. induction l as [|a l IH]; simpl; [reflexivity|].
  destruct (String.eqb_spec a k) as [->|Hne]; simpl.
  - rewrite Hk. simpl. exact IH.
  - now rewrite IH.
Qed.

Lemma filter_seen_snoc (k : string) (acc l : list string) :
  filter (fun k' => negb (existsb (String.eqb k') (acc ++ [k])%list)) l =
  filter (fun k' => negb (existsb (String.eqb k') acc))
         (filter (fun k' => negb (String.eqb k' k)) l).
Proof.
  induction l as [|a l IH]; simpl; [reflexivity|].
  rewrite existsb_app. simpl. rewrite orb_false_r, negb_orb.
  destruct (String.eqb a k); simpl.
  - rewrite andb_false_r. exact IH.
  - rewrite andb_true_r.
    destruct (existsb (String.eqb a) acc); simpl; now rewrite IH.
Qed.

Lemma keys_step (k : string) (acc rest : list string) :
  let acc' := if existsb (String.eqb k) acc then acc else (acc ++ [k])%list in
  (acc' ++ filter (fun k' => negb (existsb (String.eqb k') acc'))
                  (first_occurrences rest))%list =
  (acc ++ filter (fun k' => negb (existsb (String.eqb k') acc))
                 (first_occurrences (k :: rest)))%list.
Proof.
  simpl. destruct (existsb (String.eqb k) acc) eqn:Hk; simpl.
  - now rewrite filter_seen_drop.
  - rewrite filter_seen_snoc, <- app_assoc. reflexivity.
Qed.

(** ** The whole loop, when nothing is interrupted *)

Lemma analyze_loop_effects (discovered : list path) :
  no_interrupt ->
  forall (agg : dict) (st : State),
  exists agg' st',
    analyze_loop discovered agg st = (Ret agg', st') /\
    dict_keys agg' =
      (dict_keys agg ++
       filter (fun k' => negb (existsb (String.eqb k') (dict_keys agg)))
              (first_occurrences (map target_key (kept discovered))))%list /\
    world st' = replay (flat_map commands (kept discovered)) (world st) /\
    console st' = (console st ++ map progress_of (kept discovered))%list /\
    report_file st' = report_file st.
Proof.
  intros Hni. induction discovered as [|p rest IH]; intros agg st.
  - exists agg, st. simpl. rewrite !app_nil_r. auto.
  - unfold kept. simpl filter. fold (kept rest).
    destruct (too_shallow p) eqn:Hd; simpl negb; cbv iota.
    + destruct (IH agg st) as [agg' [st' [Hloop Hrest]]].
      exists agg', st'. split; [|exact Hrest].
      now rewrite (analyze_loop_cons p rest agg agg st st
                     (loop_body_shallow agg p st Hd)).
    + destruct (loop_body_effects agg p st Hni Hd)
        as [e [st1 [Hbody [_ [W1 [C1 R1]]]]]].
      destruct (IH (dict_set (target_key p) e agg) st1)
        as [agg' [st' [Hloop [K [W [C R]]]]]].
      exists agg', st'.
      rewrite (analyze_loop_cons p rest agg _ st st1 Hbody).
      split; [exact Hloop|]. split; [|split; [|split]].
      * rewrite K, dict_keys_set_order. simpl map.
        apply (keys_step (target_key p) (dict_keys agg)
                 (map target_key (kept rest))).
      * rewrite W, W1. unfold replay, commands. reflexivity.
      * rewrite C, C1. simpl map. now rewrite <- app_assoc.
      * now rewrite R, R1.
Qed.

Lemma filter_seen_nil (l : list string) :
  filter (fun k' => negb (existsb (String.eqb k') [])) l = l.
Proof.
  induction l as [|a l IH]; simpl; [reflexivity|]. f_equal. exact IH.
Qed.

Lemma run_after_loop (discovered : list path) (st st1 : State) (agg : dict) :
  analyze_loop discovered [] st = (Ret agg, st1) ->
  analyze_all_contracts discovered st =
    (Ret tt,
     mkState (world st1) (console st1 ++ [final_line])%list
             (Some (json_dumps 2 (VDict agg)))).
Proof.
  intros H. unfold analyze_all_contracts, bind. rewrite H. reflexivity.
Qed.

(** X1.  The keys of the aggregate stand in the order in which they first
    come up among the targets that are not skipped: a key that comes up
    again keeps its place. *)
Theorem keys_in_first_occurrence_order (discovered : list path) (st : State) :
  no_interrupt ->
  exists agg st',
    analyze_loop discovered [] st = (Ret agg, st') /\
    dict_keys agg = first_occurrences (map target_key (kept discovered)) /\
    List.length agg <= List.length (kept discovered).
Proof.
  intros Hni.
  destruct (analyze_loop_effects discovered Hni [] st)
    as [agg [st' [Hloop [K _]]]].
  exists agg, st'. split; [exact Hloop|].
  simpl in K. rewrite filter_seen_nil in K. split; [exact K|].
  assert (Hlen : forall l, List.length (first_occurrences l) <= List.length l).
  { induction l as [|a l IH]; simpl; [lia|].
    pose proof (filter_length_le (fun k' => negb (String.eqb k' a))
                  (first_occurrences l)). lia. }
  unfold dict_keys in K.
  rewrite <- (length_map fst agg), K.
  rewrite <- (length_map target_key (kept discovered)). apply Hlen.
Qed.

(** X2.  When nothing is interrupted, a run prints one progress line for
    each target that is not skipped, in the order of discovery, and then
    the closing line; nothing else is printed, and the progress line of a
    target shows its key. *)
Theorem console_lists_each_target (discovered : list path) (st : State) :
  no_interrupt ->
  exists st',
    analyze_all_contracts discovered st = (Ret tt, st') /\
    console st' =
      (console st ++ map progress_of (kept discovered) ++ [final_line])%list /\
    forall p, progress_of p = "Analyzing " ++ target_key p ++ "...".
Proof.
  intros Hni.
  destruct (analyze_loop_effects discovered Hni [] st)
    as [agg [st1 [Hloop [_ [_ [C _]]]]]].
  eexists. split; [apply (run_after_loop discovered st st1 agg Hloop)|].
  split.
  - simpl. rewrite C. now rewrite <- app_assoc.
  - intros p. unfold progress_of, progress_line, target_key.
    cbv zeta. now rewrite !append_assoc.
Qed.

(** X3.  When nothing is interrupted, a run acts on the outside world
    exactly as running, for each target that is not skipped and in the
    order of discovery, the [solc] command line and then the [slither]
    command line on its path; no command is run for a skipped target. *)
Theorem tools_run_once_per_target (discovered : list path) (st : State) :
  no_interrupt ->
  exists st',
    analyze_all_contracts discovered st = (Ret tt, st') /\
    world st' =
      replay (flat_map
                (fun p => [["solc"; "--ast-compact-json"; "--optimize";
                            path_str p];
                           ["slither"; path_str p; "--json"; "-"]])
                (kept discovered))
             (world st).
Proof.
  intros Hni.
  destruct (analyze_loop_effects discovered Hni [] st)
    as [agg [st1 [Hloop [_ [W _]]]]].
  eexists. split; [apply (run_after_loop discovered st st1 agg Hloop)|].
  simpl. exact W.
Qed.

Lemma analyze_loop_all_shallow (discovered : list path) :
  (forall p, In p discovered -> List.length (parts p) < 3) ->
  forall agg st, analyze_loop discovered agg st = (Ret agg, st).
Proof.
  induction discovered as [|p rest IH]; intros Hall agg st; [reflexivity|].
  assert (Hs : too_shallow p = true).
  { unfold too_shallow. apply Nat.ltb_lt. apply Hall. now left. }
  rewrite (analyze_loop_cons p rest agg agg st st
             (loop_body_shallow agg p st Hs)).
  apply IH. intros q Hq. apply Hall. now right.
Qed.

(** X4.  When every discovered path has fewer than 3 components (in
    particular when nothing is discovered), the run still writes the
    report: the file holds the empty object, no command is run, and only
    the closing line is printed. *)
Theorem nothing_to_analyze_writes_empty_object
        (discovered : list path) (st : State) :
  (forall p, In p discovered -> List.length (parts p) < 3) ->
  analyze_all_contracts discovered st =
    (Ret tt,
     mkState (world st) (console st ++ [final_line])%list (Some "{}")).
Proof.
  intros Hall.
  rewrite (run_after_loop discovered st st []
             (analyze_loop_all_shallow discovered Hall [] st)).
  reflexivity.
Qed.

(** ** The loop leaves the report file alone *)

Lemma report_blind_keeps {A : Type} (c : M A) (st : State) :
  report_blind c -> report_file (snd (c st)) = report_file st.
Proof.
  intros Hc. pose proof (Hc (report_file st) st) as H.
  rewrite set_report_same in H.
  destruct (c st) as [r st']. simpl in H. simpl.
  injection H as H. rewrite H at 1. reflexivity.
Qed.

(** ** The shape of a result *)

(** X6.  A result returned by either check is a dictionary of exactly
    three fields, [file], [success] and one more: either the output field
    of the tool ([solc_output], always a string, or [slither_output]), or
    [error], and with [error] the [success] field is false.  So a result
    never has both an output and an error, and never has neither. *)
Theorem result_has_output_or_error (f : string) (st : State) (r : value) :
  fst (run_solc_check f st) = Ret r \/ fst (run_slither_check f st) = Ret r ->
  exists b third,
    r = VDict [("file", VStr f); ("success", VBool b); third] /\
    ((exists out, third = ("solc_output", VStr out)) \/
     (exists j, third = ("slither_output", j)) \/
     (exists msg, third = ("error", VStr msg) /\ b = false)).
Proof.
  intros [H|H].
  - destruct (subprocess_run (solc_argv f) (world st)) as [[cp|msg|msg] w'] eqn:E.
    + rewrite (run_solc_check_launched _ _ _ _ E) in H. injection H as <-.
      eexists. eexists. split; [reflexivity|]. left. eauto.
    + rewrite (run_solc_check_failed _ _ _ _ E) in H. injection H as <-.
      eexists. eexists. split; [reflexivity|]. right. right. eauto.
    + rewrite (run_solc_check_interrupted _ _ _ _ E) in H. discriminate H.
  - destruct (subprocess_run (slither_argv f) (world st)) as [[cp|msg|msg] w'] eqn:E.
    + destruct (slither_selected cp) as [|a t] eqn:Hsel.
      * rewrite (run_slither_check_silent _ _ _ _ E Hsel) in H.
        injection H as <-.
        eexists. eexists. split; [reflexivity|]. right. left. eauto.
      * assert (Hne : slither_selected cp <> EmptyString) by congruence.
        destruct (json_loads (slither_selected cp)) as [j|msg] eqn:Hj.
        -- rewrite (run_slither_check_parsed _ _ _ _ _ E Hne Hj) in H.
           injection H as <-.
           eexists. eexists. split; [reflexivity|]. right. left. eauto.
        -- rewrite (run_slither_check_not_json _ _ _ _ _ E Hne Hj) in H.
           injection H as <-.
           eexists. eexists. split; [reflexivity|]. right. right. eauto.
    + rewrite (run_slither_check_failed _ _ _ _ E) in H. injection H as <-.
      eexists. eexists. split; [reflexivity|]. right. right. eauto.
    + rewrite (run_slither_check_interrupted _ _ _ _ E) in H. discriminate H.
Qed.

(** ** Which file an entry belongs to *)

Lemma analyze_loop_app (l1 l2 : list path) :
  forall (agg agg1 : dict) (st st1 : State),
    analyze_loop l1 agg st = (Ret agg1, st1) ->
    analyze_loop (l1 ++ l2)%list agg st = analyze_loop l2 agg1 st1.
Proof.
  induction l1 as [|p l1 IH]; intros agg agg1 st st1 H.
  - simpl in H. injection H as -> ->. reflexivity.
  - simpl in *. unfold bind in *.
    destruct (loop_body agg p st) as [[a|m|m] s1]; try discriminate H.
    now apply IH.
Qed.

Lemma loop_keeps_other_keys (k : string) (l : list path) :
  no_interrupt ->
  (forall q, In q l -> too_shallow q = false -> target_key q <> k) ->
  forall (agg : dict) (st : State),
  exists agg' st',
    analyze_loop l agg st = (Ret agg', st') /\
    dict_get k agg' = dict_get k agg.
Proof.
  intros Hni. induction l as [|p rest IH]; intros Hk agg st.
  - exists agg, st. auto.
  - assert (Hrest : forall q, In q rest -> too_shallow q = false ->
                              target_key q <> k)
      by (intros q Hq; apply Hk; now right).
    destruct (too_shallow p) eqn:Hd.
    + destruct (IH Hrest agg st) as [agg' [st' [Hloop Hget]]].
      exists agg', st'. split; [|exact Hget].
      now rewrite (analyze_loop_cons p rest agg agg st st
                     (loop_body_shallow agg p st Hd)).
    + destruct (loop_body_effects agg p st Hni Hd) as [e [st1 [Hbody _]]].
      destruct (IH Hrest (dict_set (target_key p) e agg) st1)
        as [agg' [st' [Hloop Hget]]].
      exists agg', st'.
      rewrite (analyze_loop_cons p rest agg _ st st1 Hbody).
      split; [exact Hloop|]. rewrite Hget.
      apply dict_get_set_other. intros E. symmetry in E. revert E.
      apply Hk; [now left | exact Hd].
Qed.

Lemma loop_entry_survives (p : path) (after : list path) :
  no_interrupt -> too_shallow p = false ->
  (forall q, In q after -> too_shallow q = false ->
             target_key q <> target_key p) ->
  forall (agg : dict) (st : State),
  exists agg' st' e,
    analyze_loop (p :: after) agg st = (Ret agg', st') /\
    dict_get (target_key p) agg' = Some e /\ entry_of p e.
Proof.
  intros Hni Hd Hafter agg st.
  destruct (loop_body_effects agg p st Hni Hd) as [e [st1 [Hbody [He _]]]].
  destruct (loop_keeps_other_keys (target_key p) after Hni Hafter
              (dict_set (target_key p) e agg) st1)
    as [agg' [st' [Hloop Hget]]].
  exists agg', st', e.
  rewrite (analyze_loop_cons p after agg _ st st1 Hbody).
  split; [exact Hloop|]. split; [|exact He].
  rewrite Hget. apply dict_get_set_same.
Qed.

(** X7.  When several discovered files have the same key, the entry under
    that key is the one made for the last of them: if no file after [p]
    in the order of discovery has the key of [p], the entry under that key
    holds the two results for the path of [p], whatever came before. *)
Theorem last_file_with_a_key_wins (before after : list path) (p : path)
        (st : State) :
  no_interrupt ->
  3 <= List.length (parts p) ->
  (forall q, In q after -> 3 <= List.length (parts q) ->
             target_key q <> target_key p) ->
  exists agg st' solc slither,
    analyze_loop (before ++ p :: after)%list [] st = (Ret agg, st') /\
    dict_get (target_key p) agg =
      Some (VDict [("solc", solc); ("slither", slither)]) /\
    value_get "file" solc = Some (VStr (path_str p)) /\
    value_get "file" slither = Some (VStr (path_str p)).
Proof.
  intros Hni Hlen Hafter. apply too_shallow_false in Hlen.
  destruct (analyze_loop_effects before Hni [] st)
    as [agg1 [st1 [Hloop1 _]]].
  assert (Hafter' : forall q, In q after -> too_shallow q = false ->
                              target_key q <> target_key p).
  { intros q Hq Hqd. apply Hafter; [exact Hq|]. now apply too_shallow_false. }
  destruct (loop_entry_survives p after Hni Hlen Hafter' agg1 st1)
    as [agg [st' [e [Hloop2 [Hget He]]]]].
  destruct He as [solc [slither [-> [[F1 _] [F2 _]]]]].
  exists agg, st', solc, slither.
  rewrite (analyze_loop_app before (p :: after) [] agg1 st st1 Hloop1).
  auto.
Qed.

(** ** The layout the script is made for *)

Lemma rfind_cons_None (c a : ascii) (s : string) :
  rfind c (String a s) = None -> a <> c /\ rfind c s = None.
Proof.
  simpl. destruct (rfind c s); [discriminate|].
  destruct (Ascii.eqb_spec a c); [discriminate | auto].
Qed.

Lemma append_slash_inj (a a' b b' : string) :
  rfind "/" a = None -> rfind "/" a' = None ->
  a ++ "/" ++ b = a' ++ "/" ++ b' -> a = a' /\ b = b'.
Proof.
  revert a'. induction a as [|x a IH]; intros a' Ha Ha' H.
  - destruct a' as [|y a']; simpl in H.
    + injection H as H. auto.
    + injection H as Hy _. apply rfind_cons_None in Ha'.
      destruct Ha' as [Hne _]. congruence.
  - destruct a' as [|y a']; simpl in H.
    + injection H as Hx _. apply rfind_cons_None in Ha.
      destruct Ha as [Hne _]. congruence.
    + injection H as -> H.
      apply rfind_cons_None in Ha. apply rfind_cons_None in Ha'.
      destruct (IH a' (proj2 Ha) (proj2 Ha') H) as [-> ->]. auto.
Qed.

Lemma flat_target_key (root : string) (p : path) :
  flat_target root p ->
  too_shallow p = false /\
  exists model s,
    p = [root; model; s ++ ".sol"] /\ rfind "/" model = None /\
    target_key p = model ++ "/" ++ s.
Proof.
  intros [model [s [-> [Hs Hm]]]]. split; [reflexivity|].
  exists model, s. split; [reflexivity|]. split; [exact Hm|].
  unfold target_key. cbv zeta.
  rewrite (stem_sol [root; model; s ++ ".sol"] s eq_refl Hs). reflexivity.
Qed.

Lemma flat_target_key_inj (root : string) (p q : path) :
  flat_target root p -> flat_target root q ->
  target_key p = target_key q -> p = q.
Proof.
  intros Hp Hq Hk.
  destruct (flat_target_key root p Hp) as [_ [m1 [s1 [-> [Hm1 K1]]]]].
  destruct (flat_target_key root q Hq) as [_ [m2 [s2 [-> [Hm2 K2]]]]].
  rewrite K1, K2 in Hk.
  destruct (append_slash_inj m1 m2 s1 s2 Hm1 Hm2 Hk) as [-> ->].
  reflexivity.
Qed.

Lemma first_occurrences_NoDup (l : list string) :
  NoDup l -> first_occurrences l = l.
Proof.
  induction l as [|k l IH]; intros Hnd; [reflexivity|].
  inversion Hnd as [|? ? Hnotin Hnd']; subst.
  simpl. rewrite (IH Hnd'). f_equal.
  apply forallb_filter_id. apply forallb_forall.
  intros x Hx. apply negb_true_iff. apply String.eqb_neq.
  intros ->. now apply Hnotin.
Qed.

Lemma NoDup_map_on (f : path -> string) (l : list path) :
  (forall x y, In x l -> In y l -> f x = f y -> x = y) ->
  NoDup l -> NoDup (map f l).
Proof.
  intros Hinj Hnd. induction Hnd as [|a l Hnotin Hnd IH]; simpl.
  - constructor.
  - constructor.
    + intros Hin. apply in_map_iff in Hin. destruct Hin as [y [Hy Hiny]].
      apply Hnotin.
      rewrite <- (Hinj y a (or_intror Hiny) (or_introl eq_refl) Hy).
      exact Hiny.
    + apply IH. intros x y Hx Hy. apply Hinj; now right.
Qed.

(** ** The encoder, line by line *)

Lemma concat_cons (sep x : string) (xs : list string) :
  xs <> [] -> String.concat sep (x :: xs) = x ++ sep ++ String.concat sep xs.
Proof. destruct xs; [congruence | reflexivity]. Qed.

Lemma concat_app (sep : string) (l1 l2 : list string) :
  l1 <> [] -> l2 <> [] ->
  String.concat sep (l1 ++ l2)%list =
    String.concat sep l1 ++ sep ++ String.concat sep l2.
Proof.
  induction l1 as [|x l1 IH]; intros H1 H2; [congruence|].
  destruct l1 as [|y l1].
  - simpl app. now rewrite concat_cons.
  - change ((x :: y :: l1) ++ l2)%list with (x :: ((y :: l1) ++ l2))%list.
    rewrite concat_cons by discriminate.
    rewrite IH by (assumption || discriminate).
    rewrite (concat_cons sep x (y :: l1)) by discriminate.
    now rewrite !append_assoc.
Qed.

Lemma add_comma_nonempty (ls : list string) : add_comma ls <> [].
Proof. unfold add_comma. now destruct (removelast ls). Qed.

Lemma concat_add_comma (sep : string) (ls : list string) :
  ls <> [] -> String.concat sep (add_comma ls) = String.concat sep ls ++ ",".
Proof.
  induction ls as [|x ls IH]; intros H; [congruence|].
  destruct ls as [|y ls]; [reflexivity|].
  change (add_comma (x :: y :: ls)) with (x :: add_comma (y :: ls)).
  rewrite concat_cons by apply add_comma_nonempty.
  rewrite IH by discriminate.
  rewrite (concat_cons sep x (y :: ls)) by discriminate.
  now rewrite !append_assoc.
Qed.

Lemma place_nonempty (ind pre : string) (ls : list string) :
  place ind pre ls <> [].
Proof. now destruct ls. Qed.

Lemma concat_place (sep ind pre : string) (ls : list string) :
  ls <> [] ->
  String.concat sep (place ind pre ls) = ind ++ pre ++ String.concat sep ls.
Proof.
  destruct ls as [|l r]; intros H; [congruence|]. simpl place.
  destruct r as [|l' r]; [reflexivity|].
  rewrite !concat_cons by discriminate. now rewrite !append_assoc.
Qed.

Lemma members_nonempty (ind : string) (ms : list (string * list string)) :
  ms <> [] -> members ind ms <> [].
Proof.
  destruct ms as [|[pre ls] ms]; intros H; [congruence|]. simpl.
  destruct ms as [|m ms]; [apply place_nonempty|].
  intros E. apply app_eq_nil in E. now apply (add_comma_nonempty _ (proj1 E)).
Qed.

Lemma concat_members (ind : string) (ms : list (string * list string)) :
  ms <> [] -> Forall (fun m => snd m <> []) ms ->
  String.concat nl (members ind ms) =
    ind ++ String.concat ("," ++ nl ++ ind)
             (map (fun m => fst m ++ String.concat nl (snd m)) ms).
Proof.
  induction ms as [|[pre ls] ms IH]; intros H Hall; [congruence|].
  inversion Hall as [|? ? Hls Hrest]; subst. simpl in Hls.
  destruct ms as [|m ms].
  - simpl. now apply concat_place.
  - change (members ind ((pre, ls) :: m :: ms))
      with (add_comma (place ind pre ls) ++ members ind (m :: ms))%list.
    rewrite concat_app
      by (apply add_comma_nonempty || (apply members_nonempty; discriminate)).
    rewrite concat_add_comma by apply place_nonempty.
    rewrite concat_place by assumption.
    rewrite IH by (assumption || discriminate).
    change (map (fun m0 => fst m0 ++ String.concat nl (snd m0))
                ((pre, ls) :: m :: ms))
      with ((pre ++ String.concat nl ls)
              :: map (fun m0 => fst m0 ++ String.concat nl (snd m0)) (m :: ms)).
    rewrite concat_cons by discriminate.
    now rewrite !append_assoc.
Qed.

Lemma newline_indent_two (k : nat) :
  newline_indent 2 k = nl ++ spaces (2 * k).
Proof. reflexivity. Qed.

Lemma iterencode_list (indent d : nat) (items : list value) :
  items <> [] ->
  iterencode indent d (VList items) =
    "[" ++ newline_indent indent (S d)
        ++ String.concat ("," ++ newline_indent indent (S d))
             (map (iterencode indent (S d)) items)
        ++ newline_indent indent d ++ "]".
Proof. destruct items; [congruence | reflexivity]. Qed.

Lemma iterencode_dict (indent d : nat) (entries : list (string * value)) :
  entries <> [] ->
  iterencode indent d (VDict entries) =
    "{" ++ newline_indent indent (S d)
        ++ String.concat ("," ++ newline_indent indent (S d))
             (map (fun kv => encode_basestring_ascii (fst kv) ++ ": "
                             ++ iterencode indent (S d) (snd kv))
                  entries)
        ++ newline_indent indent d ++ "}".
Proof. destruct entries; [congruence | reflexivity]. Qed.

Lemma layout_list (d : nat) (items : list value) :
  items <> [] ->
  layout d (VList items) =
    ("[" :: members (spaces (2 * S d))
                    (map (fun x => (EmptyString, layout (S d) x)) items)
         ++ [(spaces (2 * d) ++ "]")%string])%list.
Proof. destruct items; [congruence | reflexivity]. Qed.

Lemma layout_dict (d : nat) (entries : list (string * value)) :
  entries <> [] ->
  layout d (VDict entries) =
    ("{" :: members (spaces (2 * S d))
                    (map (fun kv =>
                            ((encode_basestring_ascii (fst kv) ++ ": ")%string,
                             layout (S d) (snd kv)))
                         entries)
         ++ [(spaces (2 * d) ++ "}")%string])%list.
Proof. destruct entries; [congruence | reflexivity]. Qed.

(** The text of a container whose members are laid out. *)
Lemma text_of_container (opening closing : string) (d : nat)
      (ms : list (string * list string)) :
  ms <> [] -> Forall (fun m => snd m <> []) ms ->
  text_of_lines
    (opening :: members (spaces (2 * S d)) ms
             ++ [(spaces (2 * d) ++ closing)%string])%list =
    opening ++ newline_indent 2 (S d)
            ++ String.concat ("," ++ newline_indent 2 (S d))
                 (map (fun m => fst m ++ String.concat nl (snd m)) ms)
            ++ newline_indent 2 d ++ closing.
Proof.
  intros Hne Hall. unfold text_of_lines.
  rewrite concat_cons
    by (intros E; apply app_eq_nil in E; destruct E as [_ E]; discriminate E).
  rewrite concat_app
    by ((apply members_nonempty; assumption) || discriminate).
  rewrite concat_members by assumption.
  rewrite !newline_indent_two. simpl String.concat at 3.
  now rewrite !append_assoc.
Qed.

Lemma layout_matches_encoder (v : value) :
  forall d, layout d v <> [] /\ iterencode 2 d v = text_of_lines (layout d v).
Proof.
  induction v as [| b | z | f | s | items IH | entries IH]
    using value_nested_ind; intros d;
    try (split; [discriminate | reflexivity]).
  - destruct b; split; (discriminate || reflexivity).
  - destruct items as [|x items]; [split; [discriminate | reflexivity]|].
    assert (Hne : x :: items <> []) by discriminate.
    split; [rewrite layout_list by assumption; discriminate|].
    rewrite layout_list, iterencode_list by assumption.
    rewrite text_of_container.
    + rewrite map_map. simpl fst. simpl snd.
      do 3 f_equal. f_equal.
      apply map_ext_in. intros y Hy.
      rewrite Forall_forall in IH. now rewrite (proj2 (IH y Hy (S d))).
    + discriminate.
    + apply Forall_forall. intros m Hm. apply in_map_iff in Hm.
      destruct Hm as [y [<- Hy]]. simpl.
      rewrite Forall_forall in IH. apply (proj1 (IH y Hy (S d))).
  - destruct entries as [|kv entries]; [split; [discriminate | reflexivity]|].
    assert (Hne : kv :: entries <> []) by discriminate.
    split; [rewrite layout_dict by assumption; discriminate|].
    rewrite layout_dict, iterencode_dict by assumption.
    rewrite text_of_container.
    + rewrite map_map. simpl fst. simpl snd.
      do 3 f_equal. f_equal.
      apply map_ext_in. intros y Hy.
      rewrite Forall_forall in IH. rewrite (proj2 (IH y Hy (S d))).
      now rewrite !append_assoc.
    + discriminate.
    + apply Forall_forall. intros m Hm. apply in_map_iff in Hm.
      destruct Hm as [y [<- Hy]]. simpl.
      rewrite Forall_forall in IH. apply (proj1 (IH y Hy (S d))).
Qed.

Lemma spaces_add (a b : nat) : spaces (a + b) = spaces a ++ spaces b.
Proof. induction a as [|a IH]; simpl; [reflexivity | now rewrite IH]. Qed.

Lemma moved_in_less (n k : nat) (l : string) :
  moved_in (n + k) l -> moved_in n l.
Proof.
  intros [rest ->]. exists (spaces k ++ rest).
  now rewrite spaces_add, append_assoc.
Qed.

Lemma moved_in_comma (n : nat) (l : string) :
  moved_in n l -> moved_in n (l ++ ",").
Proof. intros [rest ->]. exists (rest ++ ","). now rewrite append_assoc. Qed.

Lemma add_comma_moved_in (n : nat) (ls : list string) :
  ls <> [] -> Forall (moved_in n) ls -> Forall (moved_in n) (add_comma ls).
Proof.
  induction ls as [|x ls IH]; intros Hne Hall; [congruence|].
  inversion Hall as [|? ? Hx Hrest]; subst.
  destruct ls as [|y ls].
  - constructor; [now apply moved_in_comma | constructor].
  - change (add_comma (x :: y :: ls)) with (x :: add_comma (y :: ls)).
    constructor; [exact Hx|]. apply IH; [discriminate | exact Hrest].
Qed.

Lemma place_moved_in (n : nat) (pre : string) (ls : list string) :
  Forall (moved_in n) (tl ls) -> Forall (moved_in n) (place (spaces n) pre ls).
Proof.
  destruct ls as [|l r]; simpl; intros H.
  - constructor; [now exists pre | constructor].
  - constructor; [now exists (pre ++ l) | exact H].
Qed.

Lemma members_moved_in (n : nat) (ms : list (string * list string)) :
  Forall (fun m => Forall (moved_in n) (tl (snd m))) ms ->
  Forall (moved_in n) (members (spaces n) ms).
Proof.
  induction ms as [|[pre ls] ms IH]; intros Hall; [constructor|].
  inversion Hall as [|? ? Hls Hrest]; subst. simpl in Hls. simpl.
  destruct ms as [|m ms]; [now apply place_moved_in|].
  apply Forall_app. split.
  - apply add_comma_moved_in; [apply place_nonempty | now apply place_moved_in].
  - now apply IH.
Qed.

(** Every line of a value after its first one starts at least two spaces
    in for each level of depth. *)
Lemma layout_moved_in (v : value) :
  forall d, Forall (moved_in (2 * d)) (tl (layout d v)).
Proof.
  induction v as [| b | z | f | s | items IH | entries IH]
    using value_nested_ind; intros d; try (simpl; constructor).
  - destruct b; constructor.
  - destruct items as [|x items]; [constructor|].
    rewrite layout_list by discriminate. cbn [tl].
    apply Forall_app. split.
    + apply Forall_impl with (P := moved_in (2 * S d)).
      * intros l. replace (2 * S d) with (2 * d + 2) by lia.
        apply moved_in_less.
      * apply members_moved_in. apply Forall_forall. intros m Hm.
        apply in_map_iff in Hm. destruct Hm as [y [<- Hy]]. simpl.
        rewrite Forall_forall in IH. apply (IH y Hy (S d)).
    + constructor; [now exists "]" | constructor].
  - destruct entries as [|kv entries]; [constructor|].
    rewrite layout_dict by discriminate. cbn [tl].
    apply Forall_app. split.
    + apply Forall_impl with (P := moved_in (2 * S d)).
      * intros l. replace (2 * S d) with (2 * d + 2) by lia.
        apply moved_in_less.
      * apply members_moved_in. apply Forall_forall. intros m Hm.
        apply in_map_iff in Hm. destruct Hm as [y [<- Hy]]. simpl.
        rewrite Forall_forall in IH. apply (IH y Hy (S d)).
    + constructor; [now exists "}" | constructor].
Qed.

(** ** The entries are what the checks returned *)

Lemma loop_body_exact (agg : dict) (p : path) (st : State) :
  no_interrupt -> too_shallow p = false ->
  exists solc st1 slither st2,
    run_solc_check (path_str p) (announced p st) = (Ret solc, st1) /\
    run_slither_check (path_str p) st1 = (Ret slither, st2) /\
    loop_body agg p st =
      (Ret (dict_set (target_key p)
                     (VDict [("solc", solc); ("slither", slither)]) agg),
       st2).
Proof.
  intros Hni Hd.
  destruct (solc_check_returns (path_str p) (announced p st) Hni)
    as [solc [st1 [H1 _]]].
  destruct (slither_check_returns (path_str p) st1 Hni)
    as [slither [st2 [H2 _]]].
  exists solc, st1, slither, st2.
  split; [exact H1|]. split; [exact H2|].
  apply (loop_body_deep agg p st st1 st2 solc slither Hd H1 H2).
Qed.

Lemma analyze_loop_one (p : path) (agg agg' : dict) (st st' : State) :
  loop_body agg p st = (Ret agg', st') ->
  analyze_loop [p] agg st = (Ret agg', st').
Proof.
  intros H. now rewrite (analyze_loop_cons p [] agg agg' st st' H).
Qed.

Lemma loop_entry_exact (p : path) (after : list path) :
  no_interrupt -> too_shallow p = false ->
  (forall q, In q after -> too_shallow q = false ->
             target_key q <> target_key p) ->
  forall (agg : dict) (st : State),
  exists e agg' st',
    results_of st p e /\
    analyze_loop (p :: after) agg st = (Ret agg', st') /\
    dict_get (target_key p) agg' = Some e.
Proof.
  intros Hni Hd Hafter agg st.
  destruct (loop_body_exact agg p st Hni Hd)
    as [solc [st1 [slither [st2 [H1 [H2 Hbody]]]]]].
  destruct (loop_keeps_other_keys (target_key p) after Hni Hafter
              (dict_set (target_key p)
                        (VDict [("solc", solc); ("slither", slither)]) agg)
              st2)
    as [agg' [st' [Hloop Hget]]].
  exists (VDict [("solc", solc); ("slither", slither)]), agg', st'.
  split; [now exists solc, st1, slither, st2|].
  rewrite (analyze_loop_cons p after agg _ st st2 Hbody).
  split; [exact Hloop|]. rewrite Hget. apply dict_get_set_same.
Qed.

(** Every entry of the aggregate comes from the last target with its
    key, and is what the two checks returned in the turn of that
    target. *)
Lemma aggregate_entries_exact (st : State) (discovered : list path) :
  no_interrupt ->
  exists agg st',
    analyze_loop discovered [] st = (Ret agg, st') /\
    forall k e,
      dict_get k agg = Some e ->
      exists before p after agg0 st0,
        discovered = (before ++ p :: after)%list /\
        too_shallow p = false /\ target_key p = k /\
        (forall q, In q after -> too_shallow q = false ->
                   target_key q <> k) /\
        analyze_loop before [] st = (Ret agg0, st0) /\
        results_of st0 p e.
Proof.
  intros Hni. induction discovered as [|p l IH] using rev_ind.
  - exists [], st. split; [reflexivity|]. intros k e H. discriminate H.
  - destruct IH as [agg [st' [Hloop Hent]]].
    destruct (too_shallow p) eqn:Hd.
    + exists agg, st'. split.
      * rewrite (analyze_loop_app l [p] [] agg st st' Hloop).
        apply analyze_loop_one. now apply loop_body_shallow.
      * intros k e H.
        destruct (Hent k e H)
          as [before [p0 [after [agg0 [st0 [E [Hd0 [Hk [Hafter [Hb Hr]]]]]]]]]].
        exists before, p0, (after ++ [p])%list, agg0, st0.
        split; [rewrite E, <- app_assoc; reflexivity|].
        split; [exact Hd0|]. split; [exact Hk|].
        split; [|split; [exact Hb | exact Hr]].
        intros q Hq Hqd. apply in_app_or in Hq.
        destruct Hq as [Hq|[<-|[]]]; [now apply Hafter | congruence].
    + destruct (loop_body_exact agg p st' Hni Hd)
        as [solc [st1 [slither [st2 [H1 [H2 Hbody]]]]]].
      eexists. exists st2. split.
      * rewrite (analyze_loop_app l [p] [] agg st st' Hloop).
        apply analyze_loop_one. exact Hbody.
      * intros k e H.
        destruct (string_dec k (target_key p)) as [->|Hne].
        -- rewrite dict_get_set_same in H. injection H as <-.
           exists l, p, [], agg, st'.
           split; [reflexivity|]. split; [exact Hd|].
           split; [reflexivity|]. split; [intros q []|].
           split; [exact Hloop|]. now exists solc, st1, slither, st2.
        -- rewrite (dict_get_set_other _ _ _ agg Hne) in H.
           destruct (Hent k e H)
             as [before [p0 [after [agg0 [st0 [E [Hd0 [Hk [Hafter [Hb Hr]]]]]]]]]].
           exists before, p0, (after ++ [p])%list, agg0, st0.
           split; [rewrite E, <- app_assoc; reflexivity|].
           split; [exact Hd0|]. split; [exact Hk|].
           split; [|split; [exact Hb | exact Hr]].
           intros q Hq Hqd. apply in_app_or in Hq.
           destruct Hq as [Hq|[<-|[]]]; [now apply Hafter|].
           intros E'. apply Hne. now symmetry.
Qed.

(** C6.  When no subprocess call is interrupted, the loop ends with an
    aggregate whose keys are pairwise distinct and are exactly the keys of
    the discovered paths with at least 3 components.  Every entry is the
    dictionary [{solc: ..., slither: ...}] of the two values that
    [run_solc_check] and [run_slither_check] returned, run one after the
    other on the path of a discovered file with this key, in the state
    the loop had reached when the turn of that file began; that file is
    the last one with this key.  Paths with fewer than 3 components add
    nothing: dropping them from the input changes neither the aggregate
    nor the final state. *)
Theorem aggregate_one_entry_per_key (discovered : list path) (st : State) :
  no_interrupt ->
  exists agg st',
    analyze_loop discovered [] st = (Ret agg, st') /\
    NoDup (dict_keys agg) /\
    (forall k, In k (dict_keys agg) <->
               exists p, In p discovered /\
                         3 <= List.length (parts p) /\ target_key p = k) /\
    (forall k e,
        dict_get k agg = Some e ->
        exists before p after agg0 st0 solc st1 slither st2,
          discovered = (before ++ p :: after)%list /\
          3 <= List.length (parts p) /\ target_key p = k /\
          (forall q, In q after -> 3 <= List.length (parts q) ->
                     target_key q <> k) /\
          analyze_loop before [] st = (Ret agg0, st0) /\
          run_solc_check (path_str p) (announced p st0) = (Ret solc, st1) /\
          run_slither_check (path_str p) st1 = (Ret slither, st2) /\
          e = VDict [("solc", solc); ("slither", slither)] /\
          is_tool_result (path_str p) solc /\
          is_tool_result (path_str p) slither) /\
    analyze_loop
      (filter (fun p => (3 <=? List.length (parts p))%nat) discovered) [] st
    = (Ret agg, st').
Proof.
  intros Hni.
  destruct (analyze_loop_well_keyed discovered Hni [] [] st well_keyed_nil)
    as [agg [st' [Hloop [[Hnd [Hkeys _]] _]]]].
  destruct (aggregate_entries_exact st discovered Hni)
    as [agg2 [st2' [Hloop2 Hexact]]].
  rewrite Hloop in Hloop2. injection Hloop2 as <- <-.
  simpl in Hkeys.
  exists agg, st'. split; [exact Hloop|]. split; [exact Hnd|].
  split; [|split].
  - intros k. rewrite Hkeys. split; intros [q [Hq [Hd Hk]]]; exists q;
      (split; [exact Hq|]); (split; [|exact Hk]);
      now apply too_shallow_false.
  - intros k e H.
    destruct (Hexact k e H)
      as [before [p [after [agg0 [st0 [E [Hd [Hk [Hafter [Hb Hr]]]]]]]]]].
    destruct Hr as [solc [st1 [slither [st2 [H1 [H2 He]]]]]].
    exists before, p, after, agg0, st0, solc, st1, slither, st2.
    split; [exact E|]. split; [now apply too_shallow_false|].
    split; [exact Hk|]. split.
    { intros q Hq Hlen. apply Hafter; [exact Hq|].
      now apply too_shallow_false. }
    split; [exact Hb|]. split; [exact H1|]. split; [exact H2|].
    split; [exact He|].
    pose proof (solc_check_outcome (path_str p) (announced p st0)) as T1.
    pose proof (slither_check_outcome (path_str p) st1) as T2.
    rewrite H1 in T1. rewrite H2 in T2.
    split; [exact (proj1 T1) | exact (proj1 T2)].
  - rewrite deep_filter_ext, analyze_loop_filter. exact Hloop.
Qed.

(** X8.  In the layout the script is made for, where every discovered
    file lies right in a model directory under the root and is named
    [s.sol] with [s] not empty, no two files share a key: the aggregate has
    one entry for each file, in the order of discovery, and the entry
    under the key of a file is the dictionary of the two values that
    [run_solc_check] and [run_slither_check] returned on the path of that
    very file, in the state the loop had reached after the files before
    it. *)
Theorem flat_layout_loses_nothing (root : string) (discovered : list path)
        (st : State) :
  no_interrupt ->
  NoDup discovered ->
  (forall p, In p discovered -> flat_target root p) ->
  exists agg st',
    analyze_loop discovered [] st = (Ret agg, st') /\
    dict_keys agg = map target_key discovered /\
    List.length agg = List.length discovered /\
    forall before p after,
      discovered = (before ++ p :: after)%list ->
      exists agg0 st0 solc st1 slither st2,
        analyze_loop before [] st = (Ret agg0, st0) /\
        run_solc_check (path_str p) (announced p st0) = (Ret solc, st1) /\
        run_slither_check (path_str p) st1 = (Ret slither, st2) /\
        dict_get (target_key p) agg =
          Some (VDict [("solc", solc); ("slither", slither)]).
Proof.
  intros Hni Hnd Hflat.
  destruct (analyze_loop_effects discovered Hni [] st)
    as [agg [st' [Hloop [K _]]]].
  assert (Hkept : kept discovered = discovered).
  { unfold kept. apply forallb_filter_id. apply forallb_forall.
    intros p Hp. destruct (flat_target_key root p (Hflat p Hp)) as [Hd _].
    now rewrite Hd. }
  assert (Hinj : forall x y, In x discovered -> In y discovered ->
                             target_key x = target_key y -> x = y).
  { intros x y Hx Hy. apply (flat_target_key_inj root); now apply Hflat. }
  assert (Hkeys : dict_keys agg = map target_key discovered).
  { simpl in K. rewrite filter_seen_nil, Hkept in K. rewrite K.
    apply first_occurrences_NoDup. now apply NoDup_map_on. }
  exists agg, st'. split; [exact Hloop|]. split; [exact Hkeys|]. split.
  - unfold dict_keys in Hkeys.
    now rewrite <- (length_map fst agg), Hkeys, length_map.
  - intros before p after E. subst discovered.
    assert (Hp : In p (before ++ p :: after)%list)
      by (apply in_or_app; right; now left).
    pose proof (NoDup_remove_2 before after p Hnd) as Hnotin.
    assert (Hafter : forall q, In q after -> too_shallow q = false ->
                               target_key q <> target_key p).
    { intros q Hq _ Hk. apply Hnotin. apply in_or_app. right.
      rewrite <- (Hinj q p); [exact Hq | | exact Hp | exact Hk].
      apply in_or_app. right. now right. }
    destruct (flat_target_key root p (Hflat p Hp)) as [Hd _].
    destruct (analyze_loop_effects before Hni [] st)
      as [agg1 [st1 [Hloop1 _]]].
    destruct (loop_entry_exact p after Hni Hd Hafter agg1 st1)
      as [e [agg2 [st2 [Hr [Hloop2 Hget]]]]].
    rewrite (analyze_loop_app before (p :: after) [] agg1 st st1 Hloop1)
      in Hloop.
    rewrite Hloop2 in Hloop. injection Hloop as -> _.
    destruct Hr as [solc [s1 [slither [s2 [H1 [H2 ->]]]]]].
    exists agg1, st1, solc, s1, slither, s2. auto.
Qed.

(** ** A tool that cannot be launched *)

(** C5 (as the code has it).  When a tool cannot be launched
    ([subprocess.run] raises an [Exception]), the check returns the
    dictionary with [success] false and [error] equal to the text of the
    exception; the exception does not leave the check.  The turn of the
    loop puts the two values the checks returned under the key of the
    file, leaves every other key as it was, and the loop goes on with the
    remaining files.  When the loop has ended, the entry of a file is
    still under its key if no later file has the same key. *)
Theorem launch_failure_is_recorded :
  (forall f st msg w',
      subprocess_run (solc_argv f) (world st) = (Exc msg, w') ->
      run_solc_check f st =
        (Ret (VDict [("file", VStr f); ("success", VBool false);
                     ("error", VStr msg)]),
         set_world w' st)) /\
  (forall f st msg w',
      subprocess_run (slither_argv f) (world st) = (Exc msg, w') ->
      run_slither_check f st =
        (Ret (VDict [("file", VStr f); ("success", VBool false);
                     ("error", VStr msg)]),
         set_world w' st)) /\
  (forall p rest agg st solc st1 slither st2,
      3 <= List.length (parts p) ->
      run_solc_check (path_str p) (announced p st) = (Ret solc, st1) ->
      run_slither_check (path_str p) st1 = (Ret slither, st2) ->
      exists agg1,
        analyze_loop (p :: rest) agg st = analyze_loop rest agg1 st2 /\
        dict_get (target_key p) agg1 =
          Some (VDict [("solc", solc); ("slither", slither)]) /\
        (forall k, k <> target_key p -> dict_get k agg1 = dict_get k agg) /\
        (forall msg w',
            subprocess_run (solc_argv (path_str p)) (world st)
              = (Exc msg, w') ->
            solc = VDict [("file", VStr (path_str p));
                          ("success", VBool false); ("error", VStr msg)]) /\
        (forall msg w',
            subprocess_run (slither_argv (path_str p)) (world st1)
              = (Exc msg, w') ->
            slither = VDict [("file", VStr (path_str p));
                             ("success", VBool false);
                             ("error", VStr msg)])) /\
  (no_interrupt ->
   forall before p after st,
     3 <= List.length (parts p) ->
     (forall q, In q after -> 3 <= List.length (parts q) ->
                target_key q <> target_key p) ->
     exists agg st' agg0 st0 solc st1 slither st2,
       analyze_loop before [] st = (Ret agg0, st0) /\
       run_solc_check (path_str p) (announced p st0) = (Ret solc, st1) /\
       run_slither_check (path_str p) st1 = (Ret slither, st2) /\
       analyze_loop (before ++ p :: after)%list [] st = (Ret agg, st') /\
       dict_get (target_key p) agg =
         Some (VDict [("solc", solc); ("slither", slither)])).
Proof.
  split; [|split; [|split]].
  - intros f st msg w' H. apply (run_solc_check_failed _ _ _ _ H).
  - intros f st msg w' H. apply (run_slither_check_failed _ _ _ _ H).
  - intros p rest agg st solc st1 slither st2 Hlen H1 H2.
    apply too_shallow_false in Hlen.
    eexists. split; [|split; [|split; [|split]]].
    + apply analyze_loop_cons.
      apply (loop_body_deep agg p st st1 st2 solc slither Hlen H1 H2).
    + apply dict_get_set_same.
    + intros k Hk. now apply dict_get_set_other.
    + intros msg w' H.
      pose proof (run_solc_check_failed (path_str p) (announced p st) msg w' H)
        as E.
      rewrite H1 in E. now injection E as -> _.
    + intros msg w' H.
      pose proof (run_slither_check_failed (path_str p) st1 msg w' H) as E.
      rewrite H2 in E. now injection E as -> _.
  - intros Hni before p after st Hlen Hafter.
    apply too_shallow_false in Hlen.
    destruct (analyze_loop_effects before Hni [] st)
      as [agg0 [st0 [Hloop0 _]]].
    assert (Hafter' : forall q, In q after -> too_shallow q = false ->
                                target_key q <> target_key p).
    { intros q Hq Hqd. apply Hafter; [exact Hq|].
      now apply too_shallow_false. }
    destruct (loop_entry_exact p after Hni Hlen Hafter' agg0 st0)
      as [e [agg [st' [Hr [Hloop Hget]]]]].
    destruct Hr as [solc [st1 [slither [st2 [H1 [H2 ->]]]]]].
    exists agg, st', agg0, st0, solc, st1, slither, st2.
    rewrite (analyze_loop_app before (p :: after) [] agg0 st st0 Hloop0).
    auto.
Qed.

(** ** The text of the report *)

(** C7.  When no subprocess call is interrupted, a run ends with the
    report file holding the JSON text of the aggregate of that run.  A
    second run, started where the first one ended, leaves in the file the
    text of its own aggregate and nothing of the first report; the same
    text comes out whatever the file held before (any text, or no file
    at all).  The text is the aggregate laid out line by line with two
    spaces per level: the encoder with indent 2 writes exactly the lines
    of [layout], every line of a value below its first one starts at
    least two spaces in per level of depth, each key of the aggregate
    starts a line after two spaces, and the [solc] and [slither] keys of
    an entry start a line after four. *)
Theorem report_is_dump_of_this_run (first second : list path) (st : State) :
  no_interrupt ->
  exists agg1 st1 agg2 st2,
    (exists st', analyze_loop first [] st = (Ret agg1, st')) /\
    analyze_all_contracts first st = (Ret tt, st1) /\
    report_file st1 = Some (json_dumps 2 (VDict agg1)) /\
    (exists st', analyze_loop second [] st1 = (Ret agg2, st')) /\
    analyze_all_contracts second st1 = (Ret tt, st2) /\
    report_file st2 = Some (json_dumps 2 (VDict agg2)) /\
    (forall previous, exists st'',
        analyze_all_contracts second (set_report previous st1)
          = (Ret tt, st'') /\
        report_file st'' = Some (json_dumps 2 (VDict agg2))) /\
    (forall v, json_dumps 2 v = text_of_lines (layout 0 v)) /\
    (forall v d, Forall (moved_in (2 * d)) (tl (layout d v))) /\
    (agg2 <> [] ->
     layout 0 (VDict agg2) =
       ("{" :: members "  "
                  (map (fun kv =>
                          ((encode_basestring_ascii (fst kv) ++ ": ")%string,
                           layout 1 (snd kv)))
                       agg2)
            ++ ["}"])%list) /\
    (agg2 <> [] ->
     json_dumps 2 (VDict agg2) =
       "{" ++ nl ++ "  "
           ++ String.concat ("," ++ nl ++ "  ")
                (map (fun kv => encode_basestring_ascii (fst kv) ++ ": "
                                ++ iterencode 2 1 (snd kv)) agg2)
           ++ nl ++ "}") /\
    (forall solc slither,
        iterencode 2 1 (VDict [("solc", solc); ("slither", slither)]) =
          "{" ++ nl ++ "    "
              ++ encode_basestring_ascii "solc" ++ ": "
              ++ iterencode 2 2 solc
              ++ "," ++ nl ++ "    "
              ++ encode_basestring_ascii "slither" ++ ": "
              ++ iterencode 2 2 slither
              ++ nl ++ "  " ++ "}").
Proof.
  intros Hni.
  destruct (run_writes_dump first st Hni) as [agg1 [st1' [Hloop1 Hrun1]]].
  destruct (Hrun1 (report_file st)) as [st1 [Hall1 Hrep1]].
  rewrite set_report_same in Hall1.
  destruct (run_writes_dump second st1 Hni) as [agg2 [st2' [Hloop2 Hrun2]]].
  destruct (Hrun2 (report_file st1)) as [st2 [Hall2 Hrep2]].
  rewrite set_report_same in Hall2.
  exists agg1, st1, agg2, st2.
  split; [now exists st1'|]. split; [exact Hall1|]. split; [exact Hrep1|].
  split; [now exists st2'|]. split; [exact Hall2|]. split; [exact Hrep2|].
  split; [exact Hrun2|].
  split; [intros v; apply (proj2 (layout_matches_encoder v 0))|].
  split; [intros v d; apply layout_moved_in|].
  split; [intros Hne; now apply layout_dict|]. split.
  - intros Hne. destruct agg2 as [|kv rest]; [congruence|]. reflexivity.
  - intros solc slither. simpl. unfold nl.
    rewrite !append_assoc. simpl. rewrite !append_assoc. reflexivity.
Qed.

(** ** A run that is interrupted *)

Lemma loop_keeps_report (l : list path) (agg agg' : dict) (st st' : State) :
  analyze_loop l agg st = (Ret agg', st') -> report_file st' = report_file st.
Proof.
  intros H.
  pose proof (report_blind_keeps (analyze_loop l agg) st
                (report_blind_loop l agg)) as Hr.
  now rewrite H in Hr.
Qed.

(** X5.  When a subprocess call of a run is cut short by a
    [BaseException] that is not an [Exception] (which [except Exception]
    does not catch), that exception leaves the run at once: the files
    after it are not processed, the closing line is not printed, and the
    report file is exactly as it was before the run, so the results
    gathered so far are not written. *)
Theorem interrupt_leaves_report_untouched
        (before after : list path) (p : path) (st st0 : State) (agg0 : dict)
        (msg : string) (w' : World) :
  analyze_loop before [] st = (Ret agg0, st0) ->
  3 <= List.length (parts p) ->
  subprocess_run (solc_argv (path_str p)) (world st0) = (BaseExc msg, w') \/
  (exists solc st1,
      run_solc_check (path_str p) (announced p st0) = (Ret solc, st1) /\
      subprocess_run (slither_argv (path_str p)) (world st1)
        = (BaseExc msg, w')) ->
  analyze_all_contracts (before ++ p :: after)%list st =
    (BaseExc msg,
     mkState w' (console st0 ++ [progress_of p])%list (report_file st)).
Proof.
  intros Hb Hlen Hint. apply too_shallow_false in Hlen.
  pose proof (loop_keeps_report before [] agg0 st st0 Hb) as Hrep.
  unfold analyze_all_contracts. unfold bind at 1.
  rewrite (analyze_loop_app before (p :: after) [] agg0 st st0 Hb).
  simpl analyze_loop. unfold bind at 1.
  unfold loop_body. rewrite Hlen. unfold bind at 1. unfold print at 1.
  fold (progress_of p). unfold bind at 1.
  destruct Hint as [H|[solc [st1 [H1 H]]]].
  - rewrite (run_solc_check_interrupted (path_str p)
               (mkState (world st0) (console st0 ++ [progress_of p])%list
                        (report_file st0)) msg w' H).
    simpl. now rewrite Hrep.
  - unfold announced, print in H1. simpl snd in H1. fold (progress_of p) in H1.
    rewrite H1. unfold bind at 1.
    rewrite (run_slither_check_interrupted (path_str p) st1 msg w' H).
    pose proof (solc_check_effects (path_str p)
                  (mkState (world st0) (console st0 ++ [progress_of p])%list
                           (report_file st0))) as E.
    rewrite H1 in E. simpl in E. destruct E as [_ [C R]].
    unfold set_world. now rewrite C, R, Hrep.
Qed.

End Analyzer.

(** ** The model at work on the scripted environment *)

Lemma script_run_no_interrupt : no_interrupt script_run.
Proof.
  intros argv w msg w'. unfold script_run.
  destruct w as [|[rc out err|m] w0]; discriminate.
Qed.

(** C2 on a compilation that fails with exit code 1. *)
Lemma solc_success_iff_exit_zero_witness :
  let f := "contracts-evaluation/modelB/bar.sol" in
  let cp := mkCompleted 1 "" "Error: Expected ';'" in
  let st := mkState [Completes 1 "" "Error: Expected ';'"] [] None in
  script_run (solc_argv f) (world st) = (Ret cp, []) /\
  exists r,
    run_solc_check script_run f st = (Ret r, set_world [] st) /\
    (value_get "success" r = Some (VBool true) <-> returncode cp = 0%Z) /\
    (returncode cp = 0%Z ->
     value_get "solc_output" r = Some (VStr (stdout cp))) /\
    (returncode cp <> 0%Z ->
     value_get "success" r = Some (VBool false) /\
     value_get "solc_output" r = Some (VStr (stderr cp))).
Proof.
  intros f cp st. split; [reflexivity|].
  apply (solc_success_iff_exit_zero _ script_run f st cp []).
  reflexivity.
Defined.

(** C3 on a linter that writes nothing to standard output and a JSON
    document to standard error, with exit code 255. *)
Lemma slither_output_is_parsed_stream_witness :
  let f := "contracts-evaluation/modelA/foo.sol" in
  let cp := mkCompleted 255 "" "[]" in
  let st := mkState [Completes 255 "" "[]"] [] None in
  (forall v, tiny_loads EmptyString <> Parsed v) /\
  script_run (slither_argv f) (world st) = (Ret cp, []) /\
  tiny_loads (match stdout cp with
              | EmptyString => stderr cp
              | String _ _ => stdout cp
              end) = Parsed (VList []) /\
  exists r,
    run_slither_check script_run tiny_loads f st = (Ret r, set_world [] st) /\
    value_get "success" r = Some (VBool (returncode cp =? 0)%Z) /\
    value_get "slither_output" r = Some (VList []) /\
    value_get "error" r = None.
Proof.
  intros f cp st.
  assert (He : forall v, tiny_loads EmptyString <> Parsed v)
    by (intros v; discriminate).
  split; [exact He|]. split; [reflexivity|]. split; [reflexivity|].
  apply (slither_output_is_parsed_stream _ script_run tiny_loads f st cp []
           (VList []) He); reflexivity.
Defined.

(** C8 on a linter that writes nothing at all and exits with code 0. *)
Lemma slither_silent_gives_empty_object_witness :
  let f := "contracts-evaluation/modelA/foo.sol" in
  let cp := mkCompleted 0 EmptyString EmptyString in
  let st := mkState [Completes 0 EmptyString EmptyString] [] None in
  script_run (slither_argv f) (world st) = (Ret cp, []) /\
  stdout cp = EmptyString /\
  stderr cp = EmptyString /\
  run_slither_check script_run tiny_loads f st =
    (Ret (VDict [("file", VStr f);
                 ("success", VBool (returncode cp =? 0)%Z);
                 ("slither_output", VDict [])]),
     set_world [] st) /\
  forall r, fst (run_slither_check script_run tiny_loads f st) = Ret r ->
            value_get "slither_output" r = Some (VDict []) /\
            value_get "error" r = None /\
            (value_get "success" r = Some (VBool true) <->
             returncode cp = 0%Z).
Proof.
  intros f cp st. split; [reflexivity|]. split; [reflexivity|].
  split; [reflexivity|].
  apply (slither_silent_gives_empty_object _ script_run tiny_loads f st cp []);
    reflexivity.
Defined.

(** C10 on a linter that exits with code 0 after printing a text that is
    not JSON. *)
Lemma except_branch_result_witness :
  let f := "contracts-evaluation/modelA/foo.sol" in
  let msg := "Expecting value: line 1 column 1 (char 0)" in
  let st := mkState [Completes 0 "Traceback" EmptyString] [] None in
  let r := run_slither_check script_run tiny_loads f st in
  (exists cp,
      script_run (slither_argv f) (world st) = (Ret cp, []) /\
      slither_selected cp <> EmptyString /\
      tiny_loads (slither_selected cp) = JSONDecodeError msg /\
      r = run_slither_check script_run tiny_loads f st) /\
  exists d,
    r = (Ret (VDict d), set_world [] st) /\
    dict_get "file" d = Some (VStr f) /\
    dict_get "success" d = Some (VBool false) /\
    dict_get "error" d = Some (VStr msg) /\
    dict_get "solc_output" d = None /\
    dict_get "slither_output" d = None.
Proof.
  intros f msg st r.
  assert (H : exists cp,
             script_run (slither_argv f) (world st) = (Ret cp, []) /\
             slither_selected cp <> EmptyString /\
             tiny_loads (slither_selected cp) = JSONDecodeError msg /\
             r = run_slither_check script_run tiny_loads f st).
  { exists (mkCompleted 0 "Traceback" EmptyString).
    split; [reflexivity|]. split; [discriminate|].
    split; reflexivity. }
  split; [exact H|].
  apply (except_branch_result _ script_run tiny_loads f st msg [] r).
  right. right. exact H.
Defined.

(** C1 (as the code has it) on a file that lies right in its model
    directory. *)
Lemma key_is_model_slash_stem_witness :
  let discovered := [shallow_example; flat_example] in
  let p := flat_example in
  let st := mkState [Completes 0 "ast" EmptyString;
                     Completes 0 "{}" EmptyString] [] None in
  no_interrupt script_run /\ In p discovered /\
  3 <= List.length (parts p) /\
  let key := nth 1 (parts p) EmptyString ++ "/" ++ stem p in
  (exists agg st' e,
      analyze_loop script_run tiny_loads discovered [] st = (Ret agg, st') /\
      dict_get key agg = Some e) /\
  (forall acc st0, exists solc slither st1,
      loop_body script_run tiny_loads acc p st0 =
        (Ret (dict_set key (VDict [("solc", solc); ("slither", slither)]) acc),
         st1) /\
      is_tool_result (path_str p) solc /\
      is_tool_result (path_str p) slither) /\
  (List.length (parts p) = 3 ->
   nth 1 (parts p) EmptyString = parent_name p) /\
  (forall s, s <> EmptyString -> name p = s ++ ".sol" -> stem p = s).
Proof.
  intros discovered p st.
  assert (Hin : In p discovered) by (right; left; reflexivity).
  assert (Hlen : 3 <= List.length (parts p)) by (simpl; lia).
  split; [exact script_run_no_interrupt|].
  split; [exact Hin|]. split; [exact Hlen|].
  apply (key_is_model_slash_stem _ script_run tiny_loads discovered st p
           script_run_no_interrupt Hin Hlen).
Defined.

(** C1 as the claim puts it fails on a file one directory deeper: its
    results go under [modelA/foo], the parent directory is [sub], and
    nothing is stored under [sub/foo]. *)
Lemma key_is_not_parent_directory :
  let p := deep_example in
  let st := mkState [Completes 0 "ast" EmptyString;
                     Completes 0 "{}" EmptyString] [] None in
  In p [p] /\ 3 <= List.length (parts p) /\
  parent_name p ++ "/" ++ stem p = "sub/foo" /\
  target_key p <> parent_name p ++ "/" ++ stem p /\
  exists agg st',
    analyze_loop script_run tiny_loads [p] [] st = (Ret agg, st') /\
    dict_keys agg = ["modelA/foo"] /\
    dict_get (parent_name p ++ "/" ++ stem p) agg = None.
Proof.
  intros p st. split; [left; reflexivity|].
  split; [simpl; lia|]. split; [reflexivity|].
  split; [discriminate|].
  eexists. eexists. split; [reflexivity|]. split; reflexivity.
Qed.

(** C4 on a linter that prints a stack trace instead of JSON while the
    compiler succeeded; the loop goes on with the next target. *)
Lemma non_json_linter_output_is_recorded_witness :
  let f := path_str flat_example in
  let msg := "Expecting value: line 1 column 1 (char 0)" in
  let cp := mkCompleted 1 EmptyString "Traceback (most recent call last):" in
  let w1 := [Completes 1 EmptyString "Traceback (most recent call last):"] in
  let st := mkState (Completes 0 "ast" EmptyString :: w1) [] None in
  let st1 := set_world w1 (announced flat_example st) in
  let solc := VDict [("file", VStr f); ("success", VBool true);
                     ("solc_output", VStr "ast")] in
  (script_run (slither_argv f) (world st1) = (Ret cp, []) /\
   slither_selected cp <> EmptyString /\
   tiny_loads (slither_selected cp) = JSONDecodeError msg /\
   exists r,
     run_slither_check script_run tiny_loads f st1 = (Ret r, set_world [] st1) /\
     value_get "file" r = Some (VStr f) /\
     value_get "error" r = Some (VStr msg)) /\
  (3 <= List.length (parts flat_example) /\
   run_solc_check script_run f (announced flat_example st) = (Ret solc, st1) /\
   analyze_loop script_run tiny_loads (flat_example :: [deep_example]) [] st =
   analyze_loop script_run tiny_loads [deep_example]
     (dict_set (target_key flat_example)
               (VDict [("solc", solc); ("slither", error_result f msg)])
               [])
     (set_world [] st1)).
Proof.
  intros f msg cp w1 st st1 solc.
  destruct (non_json_linter_output_is_recorded _ script_run tiny_loads)
    as [Hcheck Hstep].
  assert (Hlen : 3 <= List.length (parts flat_example)) by (simpl; lia).
  assert (Hne : slither_selected cp <> EmptyString) by discriminate.
  split.
  - split; [reflexivity|]. split; [exact Hne|]. split; [reflexivity|].
    apply (Hcheck f st1 cp [] msg); [reflexivity | exact Hne | reflexivity].
  - split; [exact Hlen|]. split; [reflexivity|].
    apply (Hstep flat_example [deep_example] [] st solc st1 cp [] msg Hlen);
      [reflexivity | reflexivity | exact Hne | reflexivity].
Defined.

(** ** The further properties on the scripted environment *)

Lemma logging_run_no_interrupt : no_interrupt logging_run.
Proof. intros argv w msg w'. unfold logging_run. discriminate. Qed.

(** X1 on four paths: one skipped, two with the key [modelA/foo], one
    with the key [modelB/bar]. *)
Lemma keys_in_first_occurrence_order_witness :
  let discovered :=
    [shallow_example; flat_example; other_example; deep_example] in
  let st := mkState ([] : list scripted) [] None in
  no_interrupt script_run /\
  exists agg st',
    analyze_loop script_run tiny_loads discovered [] st = (Ret agg, st') /\
    dict_keys agg = first_occurrences (map target_key (kept discovered)) /\
    List.length agg <= List.length (kept discovered).
Proof.
  intros discovered st. split; [exact script_run_no_interrupt|].
  apply (keys_in_first_occurrence_order _ script_run tiny_loads discovered st
           script_run_no_interrupt).
Defined.

(** X2 on the same four paths. *)
Lemma console_lists_each_target_witness :
  let discovered :=
    [shallow_example; flat_example; other_example; deep_example] in
  let st := mkState ([] : list scripted) ["earlier line"] None in
  no_interrupt script_run /\
  exists st',
    analyze_all_contracts script_run tiny_loads tiny_float_repr
      tiny_encode_str discovered st = (Ret tt, st') /\
    console st' =
      (console st ++ map progress_of (kept discovered) ++ [final_line])%list /\
    forall p, progress_of p = "Analyzing " ++ target_key p ++ "...".
Proof.
  intros discovered st. split; [exact script_run_no_interrupt|].
  apply (console_lists_each_target _ script_run tiny_loads tiny_float_repr
           tiny_encode_str discovered st script_run_no_interrupt).
Defined.

(** X3 on a world that logs the command lines: one skipped path and two
    targets give four command lines. *)
Lemma tools_run_once_per_target_witness :
  let discovered := [flat_example; shallow_example; other_example] in
  let st := mkState ([] : list (list string)) [] None in
  no_interrupt logging_run /\
  (exists st',
    analyze_all_contracts logging_run tiny_loads tiny_float_repr
      tiny_encode_str discovered st = (Ret tt, st') /\
    world st' =
      replay logging_run
             (flat_map
                (fun p => [["solc"; "--ast-compact-json"; "--optimize";
                            path_str p];
                           ["slither"; path_str p; "--json"; "-"]])
                (kept discovered))
             (world st)) /\
  world (snd (analyze_all_contracts logging_run tiny_loads tiny_float_repr
                tiny_encode_str discovered st)) =
    [["solc"; "--ast-compact-json"; "--optimize";
      "contracts-evaluation/modelA/foo.sol"];
     ["slither"; "contracts-evaluation/modelA/foo.sol"; "--json"; "-"];
     ["solc"; "--ast-compact-json"; "--optimize";
      "contracts-evaluation/modelB/bar.sol"];
     ["slither"; "contracts-evaluation/modelB/bar.sol"; "--json"; "-"]].
Proof.
  intros discovered st. split; [exact logging_run_no_interrupt|].
  split; [|reflexivity].
  apply (tools_run_once_per_target _ logging_run tiny_loads tiny_float_repr
           tiny_encode_str discovered st logging_run_no_interrupt).
Defined.

(** X4 on a root that holds a single stray file. *)
Lemma nothing_to_analyze_writes_empty_object_witness :
  let discovered := [shallow_example] in
  let st := mkState [Completes 0 "unused" EmptyString] []
                    (Some "{ earlier report }") in
  (forall p, In p discovered -> List.length (parts p) < 3) /\
  analyze_all_contracts script_run tiny_loads tiny_float_repr tiny_encode_str
    discovered st =
    (Ret tt,
     mkState (world st) (console st ++ [final_line])%list (Some "{}")).
Proof.
  intros discovered st.
  assert (H : forall p, In p discovered -> List.length (parts p) < 3).
  { intros p [<-|[]]. simpl. lia. }
  split; [exact H|].
  apply (nothing_to_analyze_writes_empty_object _ script_run tiny_loads
           tiny_float_repr tiny_encode_str discovered st H).
Defined.

(** X6 on a compiler that is not installed. *)
Lemma result_has_output_or_error_witness :
  let f := "contracts-evaluation/modelA/foo.sol" in
  let msg := "[Errno 2] No such file or directory: 'solc'" in
  let st := mkState [FailsToLaunch msg] [] None in
  let r := error_result f msg in
  (fst (run_solc_check script_run f st) = Ret r \/
   fst (run_slither_check script_run tiny_loads f st) = Ret r) /\
  exists b third,
    r = VDict [("file", VStr f); ("success", VBool b); third] /\
    ((exists out, third = ("solc_output", VStr out)) \/
     (exists j, third = ("slither_output", j)) \/
     (exists msg', third = ("error", VStr msg') /\ b = false)).
Proof.
  intros f msg st r.
  assert (H : fst (run_solc_check script_run f st) = Ret r \/
              fst (run_slither_check script_run tiny_loads f st) = Ret r)
    by (left; reflexivity).
  split; [exact H|].
  apply (result_has_output_or_error _ script_run tiny_loads f st r H).
Defined.

(** X7 on two files with the key [modelA/foo]: the entry is the one of
    the file discovered last. *)
Lemma last_file_with_a_key_wins_witness :
  let before := [flat_example] in
  let p := deep_example in
  let after := [other_example] in
  let st := mkState ([] : list scripted) [] None in
  no_interrupt script_run /\
  3 <= List.length (parts p) /\
  (forall q, In q after -> 3 <= List.length (parts q) ->
             target_key q <> target_key p) /\
  target_key flat_example = target_key p /\
  exists agg st' solc slither,
    analyze_loop script_run tiny_loads (before ++ p :: after)%list [] st
      = (Ret agg, st') /\
    dict_get (target_key p) agg =
      Some (VDict [("solc", solc); ("slither", slither)]) /\
    value_get "file" solc = Some (VStr (path_str p)) /\
    value_get "file" slither = Some (VStr (path_str p)).
Proof.
  intros before p after st.
  assert (Hlen : 3 <= List.length (parts p)) by (simpl; lia).
  assert (Hafter : forall q, In q after -> 3 <= List.length (parts q) ->
                             target_key q <> target_key p).
  { intros q [<-|[]] _ E. cbv in E. discriminate E. }
  split; [exact script_run_no_interrupt|]. split; [exact Hlen|].
  split; [exact Hafter|]. split; [reflexivity|].
  apply (last_file_with_a_key_wins _ script_run tiny_loads before after p st
           script_run_no_interrupt Hlen Hafter).
Defined.

(** ** The aggregate, the report and the failures on the scripted
    environment *)

(** C6 on three discovered paths: one too shallow, and two that share
    the key [modelA/foo]. *)
Lemma aggregate_one_entry_per_key_witness :
  let discovered := [shallow_example; flat_example; deep_example] in
  let st := mkState [Completes 0 "ast" EmptyString;
                     Completes 0 "{}" EmptyString;
                     Completes 1 EmptyString "boom";
                     FailsToLaunch "[Errno 2] No such file or directory: 'slither'"]
                    [] None in
  no_interrupt script_run /\
  exists agg st',
    analyze_loop script_run tiny_loads discovered [] st = (Ret agg, st') /\
    NoDup (dict_keys agg) /\
    (forall k, In k (dict_keys agg) <->
               exists p, In p discovered /\
                         3 <= List.length (parts p) /\ target_key p = k) /\
    (forall k e,
        dict_get k agg = Some e ->
        exists before p after agg0 st0 solc st1 slither st2,
          discovered = (before ++ p :: after)%list /\
          3 <= List.length (parts p) /\ target_key p = k /\
          (forall q, In q after -> 3 <= List.length (parts q) ->
                     target_key q <> k) /\
          analyze_loop script_run tiny_loads before [] st = (Ret agg0, st0) /\
          run_solc_check script_run (path_str p) (announced p st0)
            = (Ret solc, st1) /\
          run_slither_check script_run tiny_loads (path_str p) st1
            = (Ret slither, st2) /\
          e = VDict [("solc", solc); ("slither", slither)] /\
          is_tool_result (path_str p) solc /\
          is_tool_result (path_str p) slither) /\
    analyze_loop script_run tiny_loads
      (filter (fun p => (3 <=? List.length (parts p))%nat) discovered) [] st
    = (Ret agg, st').
Proof.
  intros discovered st. split; [exact script_run_no_interrupt|].
  apply (aggregate_one_entry_per_key _ script_run tiny_loads discovered st
           script_run_no_interrupt).
Defined.

(** C5 as the claim puts it fails when a later file has the same key:
    neither tool can be launched for the first file, both run for the
    second one, and the aggregate at the end holds the results of the
    second file alone, with no trace of the two failures. *)
Lemma overwritten_failure_is_not_in_the_report :
  let e1 := "[Errno 2] No such file or directory: 'solc'" in
  let e2 := "[Errno 2] No such file or directory: 'slither'" in
  let st := mkState [FailsToLaunch e1; FailsToLaunch e2;
                     Completes 0 "ast" EmptyString;
                     Completes 0 "{}" EmptyString] [] None in
  let st1 := set_world [FailsToLaunch e2; Completes 0 "ast" EmptyString;
                        Completes 0 "{}" EmptyString]
                       (announced flat_example st) in
  run_solc_check script_run (path_str flat_example) (announced flat_example st)
    = (Ret (VDict [("file", VStr (path_str flat_example));
                   ("success", VBool false); ("error", VStr e1)]), st1) /\
  fst (run_slither_check script_run tiny_loads (path_str flat_example) st1)
    = Ret (VDict [("file", VStr (path_str flat_example));
                  ("success", VBool false); ("error", VStr e2)]) /\
  fst (analyze_loop script_run tiny_loads [flat_example; deep_example] [] st)
    = Ret [("modelA/foo",
            VDict [("solc",
                    VDict [("file", VStr "contracts-evaluation/modelA/sub/foo.sol");
                           ("success", VBool true);
                           ("solc_output", VStr "ast")]);
                   ("slither",
                    VDict [("file", VStr "contracts-evaluation/modelA/sub/foo.sol");
                           ("success", VBool true);
                           ("slither_output", VDict [])])])].
Proof.
  intros e1 e2 st st1. split; [reflexivity|]. split; reflexivity.
Qed.

(** C5 (as the code has it) on a machine where neither tool is
    installed. *)
Lemma launch_failure_is_recorded_witness :
  let f := path_str flat_example in
  let e1 := "[Errno 2] No such file or directory: 'solc'" in
  let e2 := "[Errno 2] No such file or directory: 'slither'" in
  let failed msg := VDict [("file", VStr f); ("success", VBool false);
                           ("error", VStr msg)] in
  let st := mkState [FailsToLaunch e1; FailsToLaunch e2] [] None in
  let st1 := set_world [FailsToLaunch e2] (announced flat_example st) in
  let st2 := set_world [] st1 in
  (script_run (solc_argv f) (world st) = (Exc e1, [FailsToLaunch e2]) /\
   run_solc_check script_run f st
     = (Ret (failed e1), set_world [FailsToLaunch e2] st)) /\
  (script_run (slither_argv f) (world st1) = (Exc e2, []) /\
   run_slither_check script_run tiny_loads f st1
     = (Ret (failed e2), set_world [] st1)) /\
  (3 <= List.length (parts flat_example) /\
   run_solc_check script_run f (announced flat_example st)
     = (Ret (failed e1), st1) /\
   run_slither_check script_run tiny_loads f st1 = (Ret (failed e2), st2) /\
   exists agg1,
     analyze_loop script_run tiny_loads [flat_example; other_example]
       [("modelB/old", VNone)] st
     = analyze_loop script_run tiny_loads [other_example] agg1 st2 /\
     dict_get (target_key flat_example) agg1 =
       Some (VDict [("solc", failed e1); ("slither", failed e2)]) /\
     (forall k, k <> target_key flat_example ->
                dict_get k agg1 = dict_get k [("modelB/old", VNone)]) /\
     (forall msg w',
         script_run (solc_argv f) (world st) = (Exc msg, w') ->
         failed e1 = failed msg) /\
     (forall msg w',
         script_run (slither_argv f) (world st1) = (Exc msg, w') ->
         failed e2 = failed msg)) /\
  (no_interrupt script_run /\
   (forall q, In q [other_example] -> 3 <= List.length (parts q) ->
              target_key q <> target_key flat_example) /\
   exists agg st' agg0 st0 solc s1 slither s2,
     analyze_loop script_run tiny_loads [] [] st = (Ret agg0, st0) /\
     run_solc_check script_run f (announced flat_example st0)
       = (Ret solc, s1) /\
     run_slither_check script_run tiny_loads f s1 = (Ret slither, s2) /\
     analyze_loop script_run tiny_loads
       ([] ++ flat_example :: [other_example])%list [] st = (Ret agg, st') /\
     dict_get (target_key flat_example) agg =
       Some (VDict [("solc", solc); ("slither", slither)])).
Proof.
  intros f e1 e2 failed st st1 st2.
  destruct (launch_failure_is_recorded _ script_run tiny_loads)
    as [Hsolc [Hslither [Hstep Hfinal]]].
  assert (Hlen : 3 <= List.length (parts flat_example)) by (simpl; lia).
  assert (Hafter : forall q, In q [other_example] ->
                             3 <= List.length (parts q) ->
                             target_key q <> target_key flat_example).
  { intros q [<-|[]] _ E. cbv in E. discriminate E. }
  split; [|split; [|split]].
  - split; [reflexivity|]. apply Hsolc. reflexivity.
  - split; [reflexivity|]. apply Hslither. reflexivity.
  - split; [exact Hlen|]. split; [reflexivity|]. split; [reflexivity|].
    apply (Hstep flat_example [other_example] [("modelB/old", VNone)] st
             (failed e1) st1 (failed e2) st2 Hlen); reflexivity.
  - split; [exact script_run_no_interrupt|]. split; [exact Hafter|].
    apply (Hfinal script_run_no_interrupt [] flat_example [other_example] st
             Hlen Hafter).
Defined.

(** C7 on two runs in a row: the first finds two targets, the second
    finds one, and the file ends up with the text of the second run's
    aggregate alone, which is written out line by line. *)
Lemma report_is_dump_of_this_run_witness :
  let first := [flat_example; deep_example] in
  let second := [flat_example] in
  let st := mkState [Completes 0 "ast" EmptyString;
                     Completes 0 "{}" EmptyString;
                     Completes 1 EmptyString "boom";
                     Completes 1 EmptyString "null";
                     Completes 0 "ast" EmptyString;
                     Completes 0 "{}" EmptyString]
                    [] None in
  let q := tiny_encode_str in
  let dumps := json_dumps tiny_float_repr tiny_encode_str in
  let lay := layout tiny_float_repr tiny_encode_str in
  let run := analyze_all_contracts script_run tiny_loads tiny_float_repr
               tiny_encode_str in
  no_interrupt script_run /\
  (exists agg1 st1 agg2 st2,
    (exists st', analyze_loop script_run tiny_loads first [] st
                 = (Ret agg1, st')) /\
    run first st = (Ret tt, st1) /\
    report_file st1 = Some (dumps 2 (VDict agg1)) /\
    (exists st', analyze_loop script_run tiny_loads second [] st1
                 = (Ret agg2, st')) /\
    run second st1 = (Ret tt, st2) /\
    report_file st2 = Some (dumps 2 (VDict agg2)) /\
    (forall previous, exists st'',
        run second (set_report previous st1) = (Ret tt, st'') /\
        report_file st'' = Some (dumps 2 (VDict agg2))) /\
    (forall v, dumps 2 v = text_of_lines (lay 0 v)) /\
    (forall v d, Forall (moved_in (2 * d)) (tl (lay d v))) /\
    (agg2 <> [] ->
     lay 0 (VDict agg2) =
       ("{" :: members "  "
                  (map (fun kv => ((q (fst kv) ++ ": ")%string,
                                   lay 1 (snd kv)))
                       agg2)
            ++ ["}"])%list) /\
    (agg2 <> [] ->
     dumps 2 (VDict agg2) =
       "{" ++ nl ++ "  "
           ++ String.concat ("," ++ nl ++ "  ")
                (map (fun kv => q (fst kv) ++ ": "
                                ++ iterencode tiny_float_repr tiny_encode_str
                                     2 1 (snd kv)) agg2)
           ++ nl ++ "}") /\
    (forall solc slither,
        iterencode tiny_float_repr tiny_encode_str 2 1
          (VDict [("solc", solc); ("slither", slither)]) =
          "{" ++ nl ++ "    "
              ++ q "solc" ++ ": "
              ++ iterencode tiny_float_repr tiny_encode_str 2 2 solc
              ++ "," ++ nl ++ "    "
              ++ q "slither" ++ ": "
              ++ iterencode tiny_float_repr tiny_encode_str 2 2 slither
              ++ nl ++ "  " ++ "}")) /\
  report_file (snd (run first st)) =
    Some (text_of_lines
            ["{";
             "  " ++ q "modelA/foo" ++ ": {";
             "    " ++ q "solc" ++ ": {";
             "      " ++ q "file" ++ ": "
                      ++ q "contracts-evaluation/modelA/sub/foo.sol" ++ ",";
             "      " ++ q "success" ++ ": false,";
             "      " ++ q "solc_output" ++ ": " ++ q "boom";
             "    },";
             "    " ++ q "slither" ++ ": {";
             "      " ++ q "file" ++ ": "
                      ++ q "contracts-evaluation/modelA/sub/foo.sol" ++ ",";
             "      " ++ q "success" ++ ": false,";
             "      " ++ q "slither_output" ++ ": null";
             "    }";
             "  }";
             "}"]) /\
  report_file (snd (run second (snd (run first st)))) =
    Some (text_of_lines
            ["{";
             "  " ++ q "modelA/foo" ++ ": {";
             "    " ++ q "solc" ++ ": {";
             "      " ++ q "file" ++ ": "
                      ++ q "contracts-evaluation/modelA/foo.sol" ++ ",";
             "      " ++ q "success" ++ ": true,";
             "      " ++ q "solc_output" ++ ": " ++ q "ast";
             "    },";
             "    " ++ q "slither" ++ ": {";
             "      " ++ q "file" ++ ": "
                      ++ q "contracts-evaluation/modelA/foo.sol" ++ ",";
             "      " ++ q "success" ++ ": true,";
             "      " ++ q "slither_output" ++ ": {}";
             "    }";
             "  }";
             "}"]).
Proof.
  intros first second st q dumps lay run.
  split; [exact script_run_no_interrupt|].
  split; [|split; reflexivity].
  apply (report_is_dump_of_this_run _ script_run tiny_loads tiny_float_repr
           tiny_encode_str first second st script_run_no_interrupt).
Defined.

(** X5 on a user who interrupts the linter of the second file: the
    report of an earlier run stays as it was. *)
Lemma interrupt_leaves_report_untouched_witness :
  let before := [flat_example] in
  let p := other_example in
  let after := [deep_example] in
  let st := mkState 3 [] (Some "{ earlier report }") in
  let st0 := mkState 1 [progress_of flat_example] (Some "{ earlier report }") in
  let agg0 :=
    [("modelA/foo",
      VDict [("solc",
              VDict [("file", VStr (path_str flat_example));
                     ("success", VBool true);
                     ("solc_output", VStr EmptyString)]);
             ("slither",
              VDict [("file", VStr (path_str flat_example));
                     ("success", VBool true);
                     ("slither_output", VDict [])])])] in
  analyze_loop interrupted_run tiny_loads before [] st = (Ret agg0, st0) /\
  3 <= List.length (parts p) /\
  (interrupted_run (solc_argv (path_str p)) (world st0)
     = (BaseExc EmptyString, 0) \/
   (exists solc st1,
       run_solc_check interrupted_run (path_str p) (announced p st0)
         = (Ret solc, st1) /\
       interrupted_run (slither_argv (path_str p)) (world st1)
         = (BaseExc EmptyString, 0))) /\
  analyze_all_contracts interrupted_run tiny_loads tiny_float_repr
    tiny_encode_str (before ++ p :: after)%list st =
    (BaseExc EmptyString,
     mkState 0 (console st0 ++ [progress_of p])%list (report_file st)).
Proof.
  intros before p after st st0 agg0.
  assert (Hb : analyze_loop interrupted_run tiny_loads before [] st
               = (Ret agg0, st0)) by reflexivity.
  assert (Hlen : 3 <= List.length (parts p)) by (simpl; lia).
  assert (Hint :
    interrupted_run (solc_argv (path_str p)) (world st0)
      = (BaseExc EmptyString, 0) \/
    (exists solc st1,
        run_solc_check interrupted_run (path_str p) (announced p st0)
          = (Ret solc, st1) /\
        interrupted_run (slither_argv (path_str p)) (world st1)
          = (BaseExc EmptyString, 0))).
  { right. eexists. eexists. split; reflexivity. }
  split; [exact Hb|]. split; [exact Hlen|]. split; [exact Hint|].
  apply (interrupt_leaves_report_untouched _ interrupted_run tiny_loads
           tiny_float_repr tiny_encode_str before after p st st0 agg0
           EmptyString 0 Hb Hlen Hint).
Defined.

(** X8 on two model directories with one file each. *)
Lemma flat_layout_loses_nothing_witness :
  let discovered := [flat_example; other_example] in
  let st := mkState ([] : list scripted) [] None in
  no_interrupt script_run /\
  NoDup discovered /\
  (forall p, In p discovered -> flat_target root_example p) /\
  exists agg st',
    analyze_loop script_run tiny_loads discovered [] st = (Ret agg, st') /\
    dict_keys agg = map target_key discovered /\
    List.length agg = List.length discovered /\
    forall before p after,
      discovered = (before ++ p :: after)%list ->
      exists agg0 st0 solc st1 slither st2,
        analyze_loop script_run tiny_loads before [] st = (Ret agg0, st0) /\
        run_solc_check script_run (path_str p) (announced p st0)
          = (Ret solc, st1) /\
        run_slither_check script_run tiny_loads (path_str p) st1
          = (Ret slither, st2) /\
        dict_get (target_key p) agg =
          Some (VDict [("solc", solc); ("slither", slither)]).
Proof.
  intros discovered st.
  assert (Hnd : NoDup discovered).
  { constructor; [intros [E|[]]; discriminate E|].
    constructor; [intros []|constructor]. }
  assert (Hflat : forall p, In p discovered -> flat_target root_example p).
  { intros p [<-|[<-|[]]].
    - exists "modelA", "foo". split; [reflexivity|].
      split; [discriminate | reflexivity].
    - exists "modelB", "bar". split; [reflexivity|].
      split; [discriminate | reflexivity]. }
  split; [exact script_run_no_interrupt|]. split; [exact Hnd|].
  split; [exact Hflat|].
  apply (flat_layout_loses_nothing _ script_run tiny_loads root_example
           discovered st script_run_no_interrupt Hnd Hflat).
Defined.
